(** * The UDP client of the Yaskawa Ethernet library: connect, receive loop,
      request registry.

    A shallow embedding of [src/udp/client.cpp] (namespace [dr::yaskawa::udp])
    and the properties of its dispatch engine.  The client object is a record
    of its members, the member functions are functions in a small monad that
    threads the client, propagates C++ exceptions and collects the calls the
    engine makes into user code and into the socket. *)

From Stdlib Require Import ZArith Lia List.
From Stdlib Require Import Strings.Byte.
From stdpp Require Import base option list gmap strings pretty.

Local Open Scope Z_scope.

(** ** Plain data *)

(** [std::uint8_t]: the request ids, values 0..255. *)
Definition uint8 := Z.

(** [std::string_view] over the receive buffer: the bytes it spans. *)
Definition string_view := list byte.

(** [std::chrono::steady_clock::time_point], as a tick count. *)
Definition time_point := Z.

(** [std::error_code]: a number and the category it is read in. *)
Inductive error_category :=
  | generic_category
  | system_category
  | other_category (name : string).

Record error_code := mk_error_code {
  ec_value : Z;
  ec_category : error_category
}.

(** [std::errc::operation_canceled] is ECANCELED, 125 on Linux. *)
Definition operation_canceled : Z := 125.

(** [explicit operator bool]: an error code is true when its value is not 0. *)
Definition ec_bool (ec : error_code) : bool := negb (ec_value ec =? 0).

(** [error == std::errc::operation_canceled]: the comparison of a code with
    a generic condition.  The generic category and the system category (which
    maps errno values to the generic conditions) are equivalent to it at equal
    values, no other category is. *)
Definition is_operation_canceled (ec : error_code) : bool :=
  match ec_category ec with
  | generic_category | system_category => ec_value ec =? operation_canceled
  | other_category _ => false
  end.

(** [make_error_code(std::errc(v))]. *)
Definition make_error_code (v : Z) : error_code :=
  {| ec_value := v; ec_category := generic_category |}.

(** The library's [Error]: an error code and a description.  The type is
    declared in a header outside the sources; the client builds it from a
    bare code (empty description) and from a code with a message, and tests
    it with [!error]. *)
Record Error := mk_Error {
  code : error_code;
  details : string
}.

Definition Error_of_code (ec : error_code) : Error :=
  {| code := ec; details := EmptyString |}.

Definition Error_bool (e : Error) : bool := ec_bool (code e).

(** [Result<T>]: a value or an [Error]. *)
Inductive Result (T : Type) :=
  | Ok (value : T)
  | Err (error : Error).
Arguments Ok {T} value.
Arguments Err {T} error.

(** What a C++ call can throw here: the [std::logic_error] of
    [registerHandler], or whatever user code throws. *)
Inductive exception :=
  | logic_error (what : string)
  | user_exception (what : string).

(** How a call ends: it returns, it throws, or it has undefined behaviour
    (erasing through an iterator whose element is gone). *)
Inductive outcome (A : Type) :=
  | Returns (a : A)
  | Throws (e : exception)
  | Undefined.
Arguments Returns {A} a.
Arguments Throws {A} e.
Arguments Undefined {A}.

(** The socket as the client sees it: open or not, and the asynchronous
    operations outstanding on it.  A receive is [Waiting] for a datagram, or
    [Cancelled] once the socket was closed under it. *)
Inductive receive_op := Waiting | Cancelled.

Definition yaskawa_category : error_category := other_category "yaskawa".

(** The types the client is generic in.  [ResponseHeader] is the header of
    [udp/message.hpp].  The handlers ([std::function<void(ResponseHeader
    const &, std::string_view)>]) and the error callbacks ([ErrorCallback], a
    [std::function<void(Error)>]) are values the client stores, copies and
    calls. *)
Class Types := {
  ResponseHeader : Type;
  Callback : Type;
  ErrorCallback : Type
}.

Section Client.
Context `{Types}.

Record connect_op := mk_connect_op {
  co_host : string;
  co_port : string;
  co_timeout : Z;
  co_handler : ErrorCallback
}.

Record udp_socket := mk_socket {
  is_open : bool;
  receive_ops : list receive_op;
  connect_ops : list connect_op
}.

(** An entry of [requests_]: registration time and reply handler. *)
Record HandlerEntry := mk_entry {
  start_time : time_point;
  on_reply : Callback
}.

(** The [Client] object: its members. *)
Record Client := mk_Client {
  socket_ : udp_socket;
  read_buffer_ : list byte;
  requests_ : gmap Z HandlerEntry;
  on_error : option ErrorCallback
}.

(** [HandlerToken] is an iterator into [requests_]; it designates the entry
    under the key it was returned for, as long as that entry exists. *)
Definition HandlerToken := uint8.

(** What the engine does that can be observed from outside: a call into
    user code, or a receive started on the socket. *)
Inductive Event :=
  | EvReply (callback : Callback) (header : ResponseHeader) (payload : string_view)
  | EvErrorCallback (callback : ErrorCallback) (error : Error)
  | EvAsyncReceive.

(** ** The monad of member functions *)

Definition M (A : Type) : Type := Client -> outcome A * Client * list Event.

Definition ret {A} (a : A) : M A := fun c => (Returns a, c, []).

Definition bind {A B} (m : M A) (f : A -> M B) : M B :=
  fun c =>
    match m c with
    | (Returns a, c1, t1) =>
        match f a c1 with
        | (o, c2, t2) => (o, c2, t1 ++ t2)
        end
    | (Throws e, c1, t1) => (Throws e, c1, t1)
    | (Undefined, c1, t1) => (Undefined, c1, t1)
    end.

Definition get : M Client := fun c => (Returns c, c, []).
Definition put (c : Client) : M unit := fun _ => (Returns tt, c, []).
Definition throw {A} (e : exception) : M A := fun c => (Throws e, c, []).
Definition undefined {A} : M A := fun c => (Undefined, c, []).
Definition emit (ev : Event) : M unit := fun c => (Returns tt, c, [ev]).

(** User code runs on the client and ends like any call; it adds no event of
    the engine's. *)
Definition lift (f : Client -> outcome unit * Client) : M unit :=
  fun c => match f c with (o, c1) => (o, c1, []) end.

End Client.

Notation "x <- m ;; k" := (bind m (fun x => k))
  (at level 90, m at level 89, right associativity).
Notation "m ;;; k" := (bind m (fun _ => k))
  (at level 90, right associativity).

Section Registry.
Context `{Types}.

Definition set_socket (s : udp_socket) (c : Client) : Client :=
  {| socket_ := s; read_buffer_ := read_buffer_ c;
     requests_ := requests_ c; on_error := on_error c |}.

Definition set_requests (r : gmap Z HandlerEntry) (c : Client) : Client :=
  {| socket_ := socket_ c; read_buffer_ := read_buffer_ c;
     requests_ := r; on_error := on_error c |}.

Definition set_read_buffer (b : list byte) (c : Client) : Client :=
  {| socket_ := socket_ c; read_buffer_ := b;
     requests_ := requests_ c; on_error := on_error c |}.

Definition set_on_error (s : option ErrorCallback) (c : Client) : Client :=
  {| socket_ := socket_ c; read_buffer_ := read_buffer_ c;
     requests_ := requests_ c; on_error := s |}.

(** ** The request registry *)

(** [std::map::insert]: the position of the key and whether the value went
    in; an existing element is left as it is. *)
Definition map_insert (k : Z) (v : HandlerEntry) (m : gmap Z HandlerEntry)
  : (HandlerToken * bool) * gmap Z HandlerEntry :=
  match m !! k with
  | Some _ => ((k, false), m)
  | None => ((k, true), <[k := v]> m)
  end.

(** [Client::registerHandler]; [now] is what [steady_clock::now()] reads. *)
Definition registerHandler (now : time_point) (rid : uint8) (handler : Callback)
  : M HandlerToken :=
  c <- get ;;
  match map_insert rid {| start_time := now; on_reply := handler |} (requests_ c) with
  | (result, requests') =>
      put (set_requests requests' c) ;;;
      if negb (snd result)
      then throw (logic_error (String.append "request_id "
                 (String.append (pretty rid)
                    " is already taken, can not register handler")))
      else ret (fst result)
  end.

(** [Client::removeHandler]: [requests_.erase(token)].  Erasing through a
    token whose entry is gone is undefined behaviour. *)
Definition removeHandler (token : HandlerToken) : M unit :=
  c <- get ;;
  match requests_ c !! token with
  | Some _ => put (set_requests (delete token (requests_ c)) c)
  | None => undefined
  end.

(** A caller registering one handler after the other; each call is
    [(now, request id, handler)]. *)
Fixpoint registerHandlers (calls : list (time_point * uint8 * Callback))
  : M (list HandlerToken) :=
  match calls with
  | [] => ret []
  | (now, rid, handler) :: rest =>
      token <- registerHandler now rid handler ;;
      tokens <- registerHandlers rest ;;
      ret (token :: tokens)
  end.

Definition call_id (call : time_point * uint8 * Callback) : uint8 := call.1.2.

(** User code called through the public functions of the client. *)
Definition as_user (m : M unit) (c : Client) : outcome unit * Client :=
  match m c with (o, c1, _) => (o, c1) end.

End Registry.

(** ** The codec and user code *)

(** The codec of [udp/protocol.hpp]; the client reads only the request id
    of a header. *)
Class Codec `{Types} := {
  request_id : ResponseHeader -> uint8;
  (** Modelled from the spec: the header codec [decodeResponseHeader], whose
      definition is outside the sources: it turns the datagram bytes into a
      header plus the remaining payload view, or signals a decode failure. *)
  decodeResponseHeader : string_view -> Result (ResponseHeader * string_view);
  (** The numeric value of [errc::unknown_request], an enumerator of the
      library's own error category, declared outside the sources. *)
  unknown_request : Z
}.

(** What a handler and an error callback do when called: they run on the
    client (they may register and remove handlers, close the socket, ...) and
    return or throw. *)
Class UserCode `{Types} := {
  call_reply :
    Callback -> ResponseHeader -> string_view -> Client -> outcome unit * Client;
  call_error :
    ErrorCallback -> Error -> Client -> outcome unit * Client
}.

Section Engine.
Context `{Types} {codec : Codec} {user : UserCode}.

Definition invoke_reply (callback : Callback) (header : ResponseHeader)
    (message : string_view) : M unit :=
  emit (EvReply callback header message) ;;;
  lift (call_reply callback header message).

Definition invoke_error (callback : ErrorCallback) (error : Error) : M unit :=
  emit (EvErrorCallback callback error) ;;;
  lift (call_error callback error).

(** ** Connection management *)

(** [Client::Client]: a socket that is not open, a zeroed buffer of 512
    bytes, no request, no error callback. *)
Definition buffer_size : nat := 512.

Definition new_Client : Client :=
  {| socket_ := {| is_open := false; receive_ops := []; connect_ops := [] |};
     read_buffer_ := repeat x00 buffer_size;
     requests_ := ∅;
     on_error := None |}.

(** Modelled from the spec: [asyncResolveConnect] of [connect.hpp], outside
    the sources: it resolves the endpoint and attempts to establish the
    socket within the timeout, asynchronously; the handler gets the error
    when the attempt completes (see [complete_connect]). *)
Definition asyncResolveConnect (host port : string) (timeout : Z)
    (on_connect : ErrorCallback) (s : udp_socket) : udp_socket :=
  {| is_open := is_open s;
     receive_ops := receive_ops s;
     connect_ops := connect_ops s ++
       [{| co_host := host; co_port := port;
           co_timeout := timeout; co_handler := on_connect |}] |}.

(** [Client::connect]; the handler it passes on is [onConnect] with the
    caller's callback. *)
Definition connect (host port : string) (timeout : Z) (callback : ErrorCallback)
  : M unit :=
  c <- get ;;
  put (set_socket (asyncResolveConnect host port timeout callback (socket_ c)) c).

(** The overload with a numeric port: [connect(host, std::to_string(port), ...)]. *)
Definition connect_port (host : string) (port : Z) (timeout : Z)
    (callback : ErrorCallback) : M unit :=
  connect host (pretty port) timeout callback.

(** Modelled from the spec: the socket's [close], asio's: it marks the
    socket closed and cancels any outstanding receive. *)
Definition socket_close (s : udp_socket) : udp_socket :=
  {| is_open := false;
     receive_ops := map (fun _ => Cancelled) (receive_ops s);
     connect_ops := connect_ops s |}.

(** [Client::close]. *)
Definition close : M unit :=
  c <- get ;;
  put (set_socket (socket_close (socket_ c)) c).

(** ** The receive loop *)

(** [socket_.async_receive]: one more receive outstanding. *)
Definition async_receive (s : udp_socket) : udp_socket :=
  {| is_open := is_open s;
     receive_ops := receive_ops s ++ [Waiting];
     connect_ops := connect_ops s |}.

(** [Client::receive]. *)
Definition receive : M unit :=
  c <- get ;;
  if negb (is_open (socket_ c)) then ret tt
  else
    put (set_socket (async_receive (socket_ c)) c) ;;;
    emit EvAsyncReceive.

(** [if (on_error) on_error(e)]. *)
Definition report (e : Error) : M unit :=
  c <- get ;;
  match on_error c with
  | Some callback => invoke_error callback e
  | None => ret tt
  end.

Definition unknown_request_error (rid : uint8) : Error :=
  {| code := {| ec_value := unknown_request; ec_category := yaskawa_category |};
     details := String.append "no handler for request id " (pretty rid) |}.

(** [Client::onReceive]. *)
Definition onReceive (error : error_code) (message_size : nat) : M unit :=
  if is_operation_canceled error then ret tt
  else if ec_bool error then
    report (Error_of_code (make_error_code (ec_value error))) ;;;
    receive
  else
    c <- get ;;
    let message := take message_size (read_buffer_ c) in
    match decodeResponseHeader message with
    | Err e =>
        report e ;;;
        receive
    | Ok (header, message) =>
        match requests_ c !! request_id header with
        | None =>
            report (unknown_request_error (request_id header)) ;;;
            receive
        | Some handler =>
            let callback := on_reply handler in
            invoke_reply callback header message ;;;
            receive
        end
    end.

(** The error a completion makes the loop report, if any: a transport error
    other than cancellation, a decode failure, or a request id that no entry
    of the registry has.  [None] for a cancellation and for a datagram that
    has a handler. *)
Definition loop_error (error : error_code) (message_size : nat) (c : Client)
  : option Error :=
  if is_operation_canceled error then None
  else if ec_bool error then Some (Error_of_code (make_error_code (ec_value error)))
  else
    match decodeResponseHeader (take message_size (read_buffer_ c)) with
    | Err e => Some e
    | Ok (header, _) =>
        match requests_ c !! request_id header with
        | None => Some (unknown_request_error (request_id header))
        | Some _ => None
        end
    end.

(** [Client::onConnect]. *)
Definition onConnect (error : Error) (callback : ErrorCallback) : M unit :=
  invoke_error callback error ;;;
  if negb (Error_bool error) then receive else ret tt.

(** ** The reactor *)

Definition pop_receive (s : udp_socket) : udp_socket :=
  {| is_open := is_open s;
     receive_ops := tail (receive_ops s);
     connect_ops := connect_ops s |}.

(** Modelled from the spec: the completion of the oldest outstanding receive,
    as the event loop (asio's) delivers it to the handler [receive] bound,
    [onReceive].  A receive that was cancelled completes with
    [operation_canceled]; one that is waiting completes with what the
    transport gives: an error code, or a datagram, of which the buffer takes
    up to its size. *)
Definition complete_receive (error : error_code) (datagram : list byte) : M unit :=
  c <- get ;;
  match receive_ops (socket_ c) with
  | [] => ret tt
  | Cancelled :: _ =>
      put (set_socket (pop_receive (socket_ c)) c) ;;;
      onReceive {| ec_value := operation_canceled; ec_category := system_category |} 0
  | Waiting :: _ =>
      let received := take buffer_size datagram in
      put (set_read_buffer (received ++ drop (length received) (read_buffer_ c))
             (set_socket (pop_receive (socket_ c)) c)) ;;;
      onReceive error (length received)
  end.

(** Modelled from the spec: the completion of the oldest connect attempt of
    [asyncResolveConnect]: with no error the socket is open; the handler is
    the lambda of [connect], that is [onConnect] with the caller's callback. *)
Definition complete_connect (error : Error) (opened : bool) : M unit :=
  c <- get ;;
  match connect_ops (socket_ c) with
  | [] => ret tt
  | op :: ops =>
      put (set_socket
             {| is_open := if Error_bool error then opened else true;
                receive_ops := receive_ops (socket_ c);
                connect_ops := ops |} c) ;;;
      onConnect error (co_handler op)
  end.

(** A run of the event loop over the receive completions the transport
    offers, one after the other. *)
Fixpoint run (completions : list (error_code * list byte)) (c : Client)
  : Client * list Event :=
  match completions with
  | [] => (c, [])
  | (error, datagram) :: rest =>
      match complete_receive error datagram c with
      | (_, c1, t1) =>
          match run rest c1 with
          | (c2, t2) => (c2, t1 ++ t2)
          end
      end
  end.

(** ** Reading a result *)

Definition outcome_of {A} (r : outcome A * Client * list Event) : outcome A := r.1.1.
Definition client_of {A} (r : outcome A * Client * list Event) : Client := r.1.2.
Definition events_of {A} (r : outcome A * Client * list Event) : list Event := r.2.

(** The handler calls and the error-callback calls in a trace, in order. *)
Fixpoint replies (t : list Event) : list (Callback * ResponseHeader * string_view) :=
  match t with
  | [] => []
  | EvReply callback header payload :: t' => (callback, header, payload) :: replies t'
  | _ :: t' => replies t'
  end.

Fixpoint error_calls (t : list Event) : list (ErrorCallback * Error) :=
  match t with
  | [] => []
  | EvErrorCallback callback error :: t' => (callback, error) :: error_calls t'
  | _ :: t' => error_calls t'
  end.

Fixpoint receives_issued (t : list Event) : nat :=
  match t with
  | [] => O
  | EvAsyncReceive :: t' => S (receives_issued t')
  | _ :: t' => receives_issued t'
  end.

End Engine.

(** ** A small instance

    A codec with a header of one byte, the request id, and user code made of
    calls to the client: enough to run the engine on concrete datagrams. *)
Module Example.

Record header := mk_header { header_id : Z }.

Inductive handler :=
  | remove_handler (token : HandlerToken)
  | close_client
  | do_nothing.

Inductive error_callback :=
  | close_on_error
  | ignore_error.

#[local] Instance types : Types :=
  {| ResponseHeader := header; Callback := handler; ErrorCallback := error_callback |}.

Definition malformed : Error :=
  {| code := {| ec_value := 1; ec_category := yaskawa_category |};
     details := "empty datagram" |}.

Definition decode (message : string_view) : Result (header * string_view) :=
  match message with
  | [] => Err malformed
  | b :: payload => Ok ({| header_id := Z.of_N (Byte.to_N b) |}, payload)
  end.

#[local] Instance codec : Codec :=
  {| request_id := header_id; decodeResponseHeader := decode; unknown_request := 3 |}.

Definition run_handler (callback : handler) (h : header) (payload : string_view)
    (c : Client) : outcome unit * Client :=
  match callback with
  | remove_handler token => as_user (removeHandler token) c
  | close_client => as_user close c
  | do_nothing => (Returns tt, c)
  end.

Definition run_error_callback (callback : error_callback) (e : Error)
    (c : Client) : outcome unit * Client :=
  match callback with
  | close_on_error => as_user close c
  | ignore_error => (Returns tt, c)
  end.

#[local] Instance user : UserCode :=
  {| call_reply := run_handler; call_error := run_error_callback |}.

(** Completion codes: success, ECONNREFUSED and ECANCELED. *)
Definition success : error_code :=
  {| ec_value := 0; ec_category := system_category |}.
Definition connection_refused : error_code :=
  {| ec_value := 111; ec_category := system_category |}.
Definition aborted : error_code :=
  {| ec_value := operation_canceled; ec_category := system_category |}.

(** A connected client whose buffer holds a datagram for request 7; a
    handler that does nothing is registered under id 9. *)
Definition listening (sink : option error_callback) : Client :=
  {| socket_ := {| is_open := true; receive_ops := []; connect_ops := [] |};
     read_buffer_ := [x07; x2a; x2b] ++ repeat x00 509;
     requests_ := <[9 := {| start_time := 20; on_reply := do_nothing |}]> ∅;
     on_error := sink |}.

(** The same with a handler under id 7 that removes itself. *)
Definition waiting_for_7 (sink : option error_callback) : Client :=
  set_requests
    (<[7 := {| start_time := 10; on_reply := remove_handler 7 |}]>
       (requests_ (listening sink)))
    (listening sink).

End Example.

(** ** File control

    [readFileList], [readFile] and [writeFile] take the next request id from
    the counter [request_id_] and hand the transfer over to the functions of
    [read_file.hpp] and [write_file.hpp]. *)

(** The commands of [commands.hpp] that the file functions build. *)
Inductive file_command :=
  | ReadFileList (type : string)
  | ReadFile (name : string)
  | WriteFile (name data : string).

Section FileControl.
Context `{Types}.

(** Modelled from the spec: the member [request_id_], declared in
    [udp/client.hpp] outside the sources: an 8-bit unsigned counter that
    wraps.  The record is the client with that member. *)
Record FileClient := mk_FileClient {
  client : Client;
  request_id_ : uint8
}.

(** [request_id_++] on the 8-bit counter: 255 is followed by 0. *)
Definition advance_request_id (fc : FileClient) : FileClient :=
  {| client := client fc; request_id_ := (request_id_ fc + 1) mod 256 |}.

End FileControl.

(** The transfers [impl::readFile] (for a file list and for a file) and
    [impl::writeFile], outside the sources: they get the client, the request
    id, the command, the timeout and the callbacks of the caller. *)
Class FileTransfer `{Types} := {
  OnFileList : Type;
  OnFile : Type;
  OnWritten : Type;
  OnReadProgress : Type;
  OnWriteProgress : Type;
  impl_readFileList :
    uint8 -> file_command -> Z -> OnFileList -> OnReadProgress ->
    FileClient -> outcome unit * FileClient;
  impl_readFile :
    uint8 -> file_command -> Z -> OnFile -> OnReadProgress ->
    FileClient -> outcome unit * FileClient;
  impl_writeFile :
    uint8 -> file_command -> Z -> OnWritten -> OnWriteProgress ->
    FileClient -> outcome unit * FileClient
}.

Section FileFunctions.
Context `{Types} {transfer : FileTransfer}.

(** [Client::readFileList]: the argument [request_id_++] is evaluated before
    the call, so the transfer gets the old value and runs on the advanced
    counter. *)
Definition readFileList (type : string) (timeout : Z) (on_done : OnFileList)
    (on_progress : OnReadProgress) (fc : FileClient)
  : outcome unit * FileClient :=
  impl_readFileList (request_id_ fc) (ReadFileList type) timeout on_done
    on_progress (advance_request_id fc).

(** [Client::readFile]. *)
Definition readFile (name : string) (timeout : Z) (on_done : OnFile)
    (on_progress : OnReadProgress) (fc : FileClient)
  : outcome unit * FileClient :=
  impl_readFile (request_id_ fc) (ReadFile name) timeout on_done
    on_progress (advance_request_id fc).

(** [Client::writeFile]. *)
Definition writeFile (name data : string) (timeout : Z) (on_done : OnWritten)
    (on_progress : OnWriteProgress) (fc : FileClient)
  : outcome unit * FileClient :=
  impl_writeFile (request_id_ fc) (WriteFile name data) timeout on_done
    on_progress (advance_request_id fc).

(** A caller's calls of the three functions, one after the other; whether a
    transfer returns or throws, the caller goes on with the next one. *)
Inductive file_call :=
  | call_readFileList (type : string) (timeout : Z) (on_done : OnFileList)
      (on_progress : OnReadProgress)
  | call_readFile (name : string) (timeout : Z) (on_done : OnFile)
      (on_progress : OnReadProgress)
  | call_writeFile (name data : string) (timeout : Z) (on_done : OnWritten)
      (on_progress : OnWriteProgress).

Definition file_function (call : file_call) (fc : FileClient)
  : outcome unit * FileClient :=
  match call with
  | call_readFileList type timeout on_done on_progress =>
      readFileList type timeout on_done on_progress fc
  | call_readFile name timeout on_done on_progress =>
      readFile name timeout on_done on_progress fc
  | call_writeFile name data timeout on_done on_progress =>
      writeFile name data timeout on_done on_progress fc
  end.

Fixpoint file_functions (calls : list file_call) (fc : FileClient) : FileClient :=
  match calls with
  | [] => fc
  | call :: rest => file_functions rest (file_function call fc).2
  end.

(** The transfers leave the counter to the client. *)
Definition transfers_keep_counter : Prop :=
  (forall rid command timeout on_done on_progress fc,
     request_id_ (impl_readFileList rid command timeout on_done on_progress fc).2
     = request_id_ fc)
  /\ (forall rid command timeout on_done on_progress fc,
        request_id_ (impl_readFile rid command timeout on_done on_progress fc).2
        = request_id_ fc)
  /\ (forall rid command timeout on_done on_progress fc,
        request_id_ (impl_writeFile rid command timeout on_done on_progress fc).2
        = request_id_ fc).

End FileFunctions.

(** ** Conditions on a registry and on user code *)

Section Conditions.
Context `{Types}.

(** The keys of the registry are request ids, [std::uint8_t] values. *)
Definition ids_in_range (requests : gmap Z HandlerEntry) : Prop :=
  map_Forall (fun k _ => 0 <= k < 256) requests.

(** No completion of the list signals cancellation. *)
Definition none_cancelled (completions : list (error_code * list byte)) : Prop :=
  Forall (fun completion => is_operation_canceled completion.1 = false) completions.

Context {user : UserCode}.

(** User code that always returns and keeps its hands off the socket. *)
Definition user_code_keeps_socket : Prop :=
  (forall callback header payload c,
     (call_reply callback header payload c).1 = Returns tt
     /\ socket_ (call_reply callback header payload c).2 = socket_ c)
  /\ (forall callback e c,
        (call_error callback e c).1 = Returns tt
        /\ socket_ (call_error callback e c).2 = socket_ c).

(** User code that never changes the registry. *)
Definition user_code_keeps_registry : Prop :=
  (forall callback header payload c,
     requests_ (call_reply callback header payload c).2 = requests_ c)
  /\ (forall callback e c,
        requests_ (call_error callback e c).2 = requests_ c).

End Conditions.

(** ** More instances *)

Module Example2.

(** User code that only looks on. *)
Definition onlooker : @UserCode Example.types :=
  {| call_reply := fun _ _ _ c => (Returns tt, c);
     call_error := fun _ _ c => (Returns tt, c) |}.

(** A running client: socket open, one receive outstanding, handlers under
    ids 7 and 9. *)
Definition running : @Client Example.types :=
  set_socket {| is_open := true; receive_ops := [Waiting]; connect_ops := [] |}
    (Example.waiting_for_7 (Some Example.ignore_error)).

(** Transfers that register a handler under the id they are given. *)
Definition registering (rid : uint8) (fc : @FileClient Example.types)
  : outcome unit * @FileClient Example.types :=
  match registerHandler (H := Example.types) 0 rid Example.do_nothing (client fc) with
  | (Returns _, c, _) => (Returns tt, {| client := c; request_id_ := request_id_ fc |})
  | (Throws e, c, _) => (Throws e, {| client := c; request_id_ := request_id_ fc |})
  | (Undefined, c, _) => (Undefined, {| client := c; request_id_ := request_id_ fc |})
  end.

Definition transfer : @FileTransfer Example.types :=
  {| OnFileList := unit; OnFile := unit; OnWritten := unit;
     OnReadProgress := unit; OnWriteProgress := unit;
     impl_readFileList := fun rid _ _ _ _ => registering rid;
     impl_readFile := fun rid _ _ _ _ => registering rid;
     impl_writeFile := fun rid _ _ _ _ => registering rid |}.

(** A listing, a download and an upload. *)
Definition list_jobs : @file_call Example.types transfer :=
  call_readFileList (H := Example.types) (transfer := transfer) "JBI" 500 tt tt.
Definition read_job : @file_call Example.types transfer :=
  call_readFile (H := Example.types) (transfer := transfer) "A.JBI" 500 tt tt.
Definition write_job : @file_call Example.types transfer :=
  call_writeFile (H := Example.types) (transfer := transfer) "B.JBI" "NOP" 500 tt tt.

(** A new client whose counter stands at a given value. *)
Definition counting_from (rid : uint8) : @FileClient Example.types :=
  {| client := new_Client; request_id_ := rid |}.

End Example2.

(** User code written as a script of calls to the client. *)
Module Script.

#[local] Unset Elimination Schemes.
Inductive action :=
  | do_remove (token : Z)
  | do_register (now : Z) (rid : Z) (handler : list action)
  | do_close
  | do_throw (what : string).
#[local] Set Elimination Schemes.

#[local] Instance types : Types :=
  {| ResponseHeader := Example.header;
     Callback := list action;
     ErrorCallback := list action |}.

#[local] Instance codec : Codec :=
  {| request_id := Example.header_id;
     decodeResponseHeader := Example.decode;
     unknown_request := 3 |}.

Definition perform (a : action) : M unit :=
  match a with
  | do_remove token => removeHandler token
  | do_register now rid handler =>
      token <- registerHandler now rid handler ;; ret tt
  | do_close => close
  | do_throw what => throw (user_exception what)
  end.

Fixpoint perform_all (script : list action) : M unit :=
  match script with
  | [] => ret tt
  | a :: rest => perform a ;;; perform_all rest
  end.

#[local] Instance user : UserCode :=
  {| call_reply := fun script _ _ => as_user (perform_all script);
     call_error := fun script _ => as_user (perform_all script) |}.

(** A connected client whose buffer holds a datagram for request 7, with the
    given handler under id 7 and the given error sink. *)
Definition serving (handler : list action) (sink : option (list action)) : Client :=
  {| socket_ := {| is_open := true; receive_ops := []; connect_ops := [] |};
     read_buffer_ := [x07; x2a; x2b] ++ repeat x00 509;
     requests_ := <[7 := {| start_time := 10; on_reply := handler |}]> ∅;
     on_error := sink |}.

End Script.

(** ** The header in front of the payload *)

Section Wire.
Context `{Types} {codec : Codec}.

(** Modelled from the spec: the contract of the codec outside the sources: a
    datagram is a header of fixed shape followed by the payload, and decoding
    leaves the view on the bytes after the header. *)
Definition codec_strips_header (header_size : nat) : Prop :=
  forall message header payload,
    decodeResponseHeader message = Ok (header, payload) ->
    payload = drop header_size message.

(** The client once the transport has written a datagram into the buffer for
    the oldest receive: what [onReceive] runs on (see [complete_receive]). *)
Definition received (datagram : list byte) (c : Client) : Client :=
  set_read_buffer
    (take buffer_size datagram
     ++ drop (length (take buffer_size datagram)) (read_buffer_ c))
    (set_socket (pop_receive (socket_ c)) c).

End Wire.

(** ** Where a callable lives

    A [std::function] is an object: the one a registry entry holds dies when
    the entry is erased, a copy of it lives on.  This finer embedding of the
    dispatch keeps, for every call into user code, the place of the object
    that runs, so that erasing the entry of the running object shows.  User
    code is a script of calls to the client. *)
Module Lifetime.

Inductive place :=
  | entry_of (rid : uint8)
  | elsewhere.

Section Dispatch.
Variable Header : Type.

#[local] Instance types : Types :=
  {| ResponseHeader := Header;
     Callback := list Script.action;
     ErrorCallback := list Script.action |}.

Context {codec : Codec}.

(** [requests_.erase(token)] called from code that runs from [running]: the
    erase destroys the callable of the entry; when that is the one running,
    what follows runs a destroyed object, which is undefined behaviour. *)
Definition erase (running : place) (token : HandlerToken) : M unit :=
  removeHandler token ;;;
  match running with
  | entry_of rid => if bool_decide (rid = token) then undefined else ret tt
  | elsewhere => ret tt
  end.

Definition perform (running : place) (a : Script.action) : M unit :=
  match a with
  | Script.do_remove token => erase running token
  | Script.do_register now rid handler =>
      token <- registerHandler now rid handler ;; ret tt
  | Script.do_close => close
  | Script.do_throw what => throw (user_exception what)
  end.

Fixpoint perform_all (running : place) (script : list Script.action) : M unit :=
  match script with
  | [] => ret tt
  | a :: rest => perform running a ;;; perform_all running rest
  end.

(** A callable and the place it lives at. *)
Definition callable : Type := list Script.action * place.

(** [handler->second.on_reply]: the callable inside the entry. *)
Definition stored (rid : uint8) (handler : HandlerEntry) : callable :=
  (on_reply handler, entry_of rid).

(** [auto callback = ...]: a copy, an object of its own. *)
Definition copy (f : callable) : callable := (f.1, elsewhere).

(** [f(header, message)]. *)
Definition call_handler (f : callable) (header : Header) (message : string_view)
  : M unit :=
  emit (EvReply f.1 header message) ;;;
  lift (as_user (perform_all f.2 f.1)).

(** [if (on_error) on_error(e)]: the member [on_error] is no registry entry. *)
Definition report (e : Error) : M unit :=
  c <- get ;;
  match on_error c with
  | Some callback =>
      emit (EvErrorCallback callback e) ;;;
      lift (as_user (perform_all elsewhere callback))
  | None => ret tt
  end.

(** [Client::onReceive], with the copy of line 154 spelled out. *)
Definition onReceive (error : error_code) (message_size : nat) : M unit :=
  if is_operation_canceled error then ret tt
  else if ec_bool error then
    report (Error_of_code (make_error_code (ec_value error))) ;;;
    receive
  else
    c <- get ;;
    let message := take message_size (read_buffer_ c) in
    match decodeResponseHeader message with
    | Err e =>
        report e ;;;
        receive
    | Ok (header, message) =>
        match requests_ c !! request_id header with
        | None =>
            report (unknown_request_error (request_id header)) ;;;
            receive
        | Some handler =>
            let callback := copy (stored (request_id header) handler) in
            call_handler callback header message ;;;
            receive
        end
    end.

(** The dispatch as it would be without the copy: the callable of the entry
    is called where it is, through [handler->second.on_reply] itself. *)
Definition onReceive_in_place (error : error_code) (message_size : nat) : M unit :=
  if is_operation_canceled error then ret tt
  else if ec_bool error then
    report (Error_of_code (make_error_code (ec_value error))) ;;;
    receive
  else
    c <- get ;;
    let message := take message_size (read_buffer_ c) in
    match decodeResponseHeader message with
    | Err e =>
        report e ;;;
        receive
    | Ok (header, message) =>
        match requests_ c !! request_id header with
        | None =>
            report (unknown_request_error (request_id header)) ;;;
            receive
        | Some handler =>
            call_handler (stored (request_id header) handler) header message ;;;
            receive
        end
    end.

(** Scripts as the user code of the engine: every call the engine makes runs
    a callable that is no registry entry. *)
Definition user : UserCode :=
  {| call_reply := fun script _ _ => as_user (perform_all elsewhere script);
     call_error := fun script _ => as_user (perform_all elsewhere script) |}.

End Dispatch.

End Lifetime.

(** * Properties *)

(** Unfolds the monad in a goal about a member function. *)
Ltac run_monad :=
  unfold bind, get, put, ret, emit, lift, throw, undefined; simpl.

Section RegistryProperties.
Context `{Types}.

Lemma set_requests_same (c : Client) : set_requests (requests_ c) c = c.
Proof. destruct c; reflexivity. Qed.

Lemma map_insert_taken k v (m : gmap Z HandlerEntry) entry :
  m !! k = Some entry -> map_insert k v m = ((k, false), m).
Proof. intros Hk. unfold map_insert. rewrite Hk. reflexivity. Qed.

Lemma map_insert_free k v (m : gmap Z HandlerEntry) :
  m !! k = None -> map_insert k v m = ((k, true), <[k := v]> m).
Proof. intros Hk. unfold map_insert. rewrite Hk. reflexivity. Qed.

(** Registering under a free id returns the token of that id and adds the
    entry, with the time of the call. *)
Lemma registerHandler_free now rid handler (c : Client) :
  requests_ c !! rid = None ->
  registerHandler now rid handler c =
    (Returns rid,
     set_requests (<[rid := {| start_time := now; on_reply := handler |}]> (requests_ c)) c,
     []).
Proof.
  intros Hfree. unfold registerHandler. run_monad.
  rewrite (map_insert_free _ _ _ Hfree). reflexivity.
Qed.

(** Registering under a taken id throws and changes nothing. *)
Lemma registerHandler_taken now rid handler (c : Client) entry :
  requests_ c !! rid = Some entry ->
  registerHandler now rid handler c =
    (Throws (logic_error
       (String.append "request_id "
          (String.append (pretty rid) " is already taken, can not register handler"))),
     c, []).
Proof.
  intros Htaken. unfold registerHandler. run_monad.
  rewrite (map_insert_taken _ _ _ _ Htaken). simpl.
  rewrite set_requests_same. reflexivity.
Qed.

(** C2: registering under an id that is already in the registry throws
    [std::logic_error] (the duplicate-id error, naming the id) to the caller
    and leaves the client, hence the registered entry with its timestamp and
    callback, as it was. *)
Theorem registerHandler_duplicate now rid handler (c : Client) entry :
  requests_ c !! rid = Some entry ->
  registerHandler now rid handler c =
    (Throws (logic_error
       (String.append "request_id "
          (String.append (pretty rid) " is already taken, can not register handler"))),
     c, [])
  /\ requests_ (client_of (registerHandler now rid handler c)) !! rid = Some entry.
Proof.
  intros Htaken.
  rewrite (registerHandler_taken now rid handler c entry Htaken).
  split; [reflexivity | exact Htaken].
Qed.

(** Removing through a live token erases its entry and nothing else. *)
Lemma removeHandler_live token (c : Client) entry :
  requests_ c !! token = Some entry ->
  removeHandler token c =
    (Returns tt, set_requests (delete token (requests_ c)) c, []).
Proof.
  intros Hlive. unfold removeHandler. run_monad. rewrite Hlive. reflexivity.
Qed.

(** A sequence of registrations under distinct free ids: all succeed, the
    tokens are those of the ids in order, each entry is stored, every other
    key of the registry is as before, and so is the rest of the client. *)
Lemma registerHandlers_distinct calls : forall (c : Client),
  NoDup (map call_id calls) ->
  (forall rid, rid ∈ map call_id calls -> requests_ c !! rid = None) ->
  exists requests',
    registerHandlers calls c =
      (Returns (map call_id calls), set_requests requests' c, [])
    /\ (forall now rid handler, (now, rid, handler) ∈ calls ->
          requests' !! rid = Some {| start_time := now; on_reply := handler |})
    /\ (forall k, k ∉ map call_id calls -> requests' !! k = requests_ c !! k).
Proof.
  induction calls as [| [[now rid] handler] calls IH]; intros c Hnodup Hfree.
  - exists (requests_ c). split; [| split].
    + simpl. unfold ret. rewrite set_requests_same. reflexivity.
    + intros ? ? ? Hin. inversion Hin.
    + reflexivity.
  - simpl in Hnodup. apply NoDup_cons in Hnodup as [Hfresh Hnodup].
    assert (Hrid : requests_ c !! rid = None).
    { apply Hfree. simpl. apply list_elem_of_here. }
    set (entry := {| start_time := now; on_reply := handler |}).
    set (c1 := set_requests (<[rid := entry]> (requests_ c)) c).
    destruct (IH c1 Hnodup) as (requests' & Hrun & Hstored & Hother).
    { intros k Hk. simpl. rewrite lookup_insert_ne.
      - apply Hfree. simpl. apply list_elem_of_further. exact Hk.
      - intros ->. apply Hfresh. exact Hk. }
    exists requests'. split; [| split].
    + simpl. unfold bind at 1. rewrite (registerHandler_free _ _ _ _ Hrid).
      fold entry. fold c1. unfold bind at 1. rewrite Hrun. reflexivity.
    + intros now' rid' handler' Hin.
      apply elem_of_cons in Hin as [Heq | Hin].
      * inversion Heq; subst now' rid' handler'.
        rewrite Hother by exact Hfresh.
        simpl. apply lookup_insert_eq.
      * apply Hstored. exact Hin.
    + intros k Hk. simpl in Hk.
      apply not_elem_of_cons in Hk as [Hne Hk].
      rewrite Hother by exact Hk.
      simpl. apply lookup_insert_ne. intros ->. apply Hne. reflexivity.
Qed.

(** C9: registrations under pairwise-distinct ids (none of them in use)
    all succeed; removing through any one of the returned tokens then
    succeeds, deletes the entry of that token and leaves every other entry
    of the registry as it was. *)
Theorem register_distinct_then_remove calls (c : Client) :
  NoDup (map call_id calls) ->
  (forall rid, rid ∈ map call_id calls -> requests_ c !! rid = None) ->
  exists tokens c',
    registerHandlers calls c = (Returns tokens, c', [])
    /\ length tokens = length calls
    /\ (forall i now rid handler token,
          calls !! i = Some (now, rid, handler) -> tokens !! i = Some token ->
          requests_ c' !! token = Some {| start_time := now; on_reply := handler |})
    /\ (forall token, token ∈ tokens ->
          outcome_of (removeHandler token c') = Returns tt
          /\ events_of (removeHandler token c') = []
          /\ requests_ (client_of (removeHandler token c')) !! token = None
          /\ (forall k, k ≠ token ->
                requests_ (client_of (removeHandler token c')) !! k = requests_ c' !! k)).
Proof.
  intros Hnodup Hfree.
  destruct (registerHandlers_distinct calls c Hnodup Hfree)
    as (requests' & Hrun & Hstored & Hother).
  exists (map call_id calls), (set_requests requests' c).
  split; [exact Hrun |]. split; [apply length_map |]. split.
  - intros i now rid handler token Hcall Htoken.
    rewrite list_lookup_fmap, Hcall in Htoken. simpl in Htoken.
    inversion Htoken; subst token. simpl.
    apply (Hstored now rid handler).
    apply list_elem_of_lookup. exists i. exact Hcall.
  - intros token Htoken.
    apply list_elem_of_fmap in Htoken as ([[now rid] handler] & -> & Hin).
    unfold call_id; simpl.
    pose proof (Hstored now rid handler Hin) as Hlive.
    rewrite (removeHandler_live rid (set_requests requests' c) _ Hlive).
    unfold outcome_of, events_of, client_of; simpl.
    split; [reflexivity |]. split; [reflexivity |]. split.
    + apply lookup_delete_eq.
    + intros k Hne. apply lookup_delete_ne. congruence.
Qed.

End RegistryProperties.

Section EngineProperties.
Context `{Types} {codec : Codec} {user : UserCode}.

(** *** The monad *)

Lemma bind_get {A} (f : Client -> M A) (c : Client) :
  (x <- get ;; f x) c = f c c.
Proof. unfold bind, get. destruct (f c c) as [[o c2] t]. reflexivity. Qed.

Lemma bind_returns {A B} (m : M A) (f : A -> M B) (c c1 : Client) a t :
  m c = (Returns a, c1, t) ->
  (x <- m ;; f x) c =
    (outcome_of (f a c1), client_of (f a c1), t ++ events_of (f a c1)).
Proof.
  intros Hm. unfold bind. rewrite Hm.
  destruct (f a c1) as [[o c2] t2]. reflexivity.
Qed.

Lemma bind_throws {A B} (m : M A) (f : A -> M B) (c c1 : Client) e t :
  m c = (Throws e, c1, t) -> (x <- m ;; f x) c = (Throws e, c1, t).
Proof. intros Hm. unfold bind. rewrite Hm. reflexivity. Qed.

Lemma bind_undefined {A B} (m : M A) (f : A -> M B) (c c1 : Client) t :
  m c = (Undefined, c1, t) -> (x <- m ;; f x) c = (Undefined, c1, t).
Proof. intros Hm. unfold bind. rewrite Hm. reflexivity. Qed.

(** *** [receive] *)

Lemma receive_closed (c : Client) :
  is_open (socket_ c) = false -> receive c = (Returns tt, c, []).
Proof. intros Hclosed. unfold receive. rewrite bind_get, Hclosed. reflexivity. Qed.

Lemma receive_open (c : Client) :
  is_open (socket_ c) = true ->
  receive c = (Returns tt, set_socket (async_receive (socket_ c)) c, [EvAsyncReceive]).
Proof. intros Hopen. unfold receive. rewrite bind_get, Hopen. reflexivity. Qed.

(** [receive] returns, calls no user code and leaves the registry alone. *)
Lemma receive_quiet (c : Client) :
  outcome_of (receive c) = Returns tt
  /\ replies (events_of (receive c)) = []
  /\ error_calls (events_of (receive c)) = []
  /\ requests_ (client_of (receive c)) = requests_ c.
Proof.
  destruct (is_open (socket_ c)) eqn:Hopen.
  - rewrite (receive_open c Hopen). repeat split.
  - rewrite (receive_closed c Hopen). repeat split.
Qed.

(** *** Reporting *)

Lemma report_none (e : Error) (c : Client) :
  on_error c = None -> report e c = (Returns tt, c, []).
Proof. intros Hnone. unfold report. rewrite bind_get, Hnone. reflexivity. Qed.

Lemma report_sink (e : Error) (c : Client) sink :
  on_error c = Some sink ->
  report e c =
    ((call_error sink e c).1, (call_error sink e c).2, [EvErrorCallback sink e]).
Proof.
  intros Hsink. unfold report. rewrite bind_get, Hsink.
  unfold invoke_error, bind, emit, lift.
  destruct (call_error sink e c) as [o c1]. destruct o; reflexivity.
Qed.

Lemma invoke_reply_run callback header payload (c : Client) :
  invoke_reply callback header payload c =
    ((call_reply callback header payload c).1,
     (call_reply callback header payload c).2,
     [EvReply callback header payload]).
Proof.
  unfold invoke_reply, bind, emit, lift.
  destruct (call_reply callback header payload c) as [o c1]. destruct o; reflexivity.
Qed.

Lemma invoke_error_run callback e (c : Client) :
  invoke_error callback e c =
    ((call_error callback e c).1, (call_error callback e c).2,
     [EvErrorCallback callback e]).
Proof.
  unfold invoke_error, bind, emit, lift.
  destruct (call_error callback e c) as [o c1]. destruct o; reflexivity.
Qed.

(** *** The branches of [onReceive] *)

Lemma success_not_canceled (error : error_code) :
  ec_bool error = false -> is_operation_canceled error = false.
Proof.
  unfold ec_bool, is_operation_canceled, operation_canceled. intros Hok.
  apply negb_false_iff in Hok. apply Z.eqb_eq in Hok. rewrite Hok.
  destruct (ec_category error); reflexivity.
Qed.

Lemma onReceive_canceled error n (c : Client) :
  is_operation_canceled error = true -> onReceive error n c = (Returns tt, c, []).
Proof. intros Hcancel. unfold onReceive. rewrite Hcancel. reflexivity. Qed.

Lemma onReceive_transport_error error n (c : Client) :
  is_operation_canceled error = false -> ec_bool error = true ->
  onReceive error n c =
    (report (Error_of_code (make_error_code (ec_value error))) ;;; receive) c.
Proof. intros Hcancel Herr. unfold onReceive. rewrite Hcancel, Herr. reflexivity. Qed.

Lemma onReceive_decode_error error n (c : Client) e :
  ec_bool error = false ->
  decodeResponseHeader (take n (read_buffer_ c)) = Err e ->
  onReceive error n c = (report e ;;; receive) c.
Proof.
  intros Hok Hdecode. unfold onReceive.
  rewrite (success_not_canceled error Hok), Hok, bind_get, Hdecode. reflexivity.
Qed.

Lemma onReceive_unknown_request error n (c : Client) header payload :
  ec_bool error = false ->
  decodeResponseHeader (take n (read_buffer_ c)) = Ok (header, payload) ->
  requests_ c !! request_id header = None ->
  onReceive error n c =
    (report (unknown_request_error (request_id header)) ;;; receive) c.
Proof.
  intros Hok Hdecode Hnone. unfold onReceive.
  rewrite (success_not_canceled error Hok), Hok, bind_get, Hdecode, Hnone.
  reflexivity.
Qed.

Lemma onReceive_found error n (c : Client) header payload entry :
  ec_bool error = false ->
  decodeResponseHeader (take n (read_buffer_ c)) = Ok (header, payload) ->
  requests_ c !! request_id header = Some entry ->
  onReceive error n c =
    (invoke_reply (on_reply entry) header payload ;;; receive) c.
Proof.
  intros Hok Hdecode Hfound. unfold onReceive.
  rewrite (success_not_canceled error Hok), Hok, bind_get, Hdecode, Hfound.
  reflexivity.
Qed.

(** What the loop reports when a completion is a transport error, a decode
    failure or a datagram for an unknown request. *)
Lemma onReceive_reports error n (c : Client) e :
  loop_error error n c = Some e ->
  onReceive error n c = (report e ;;; receive) c.
Proof.
  unfold loop_error. intros Hloop.
  destruct (is_operation_canceled error) eqn:Hcancel; [discriminate |].
  destruct (ec_bool error) eqn:Herr.
  - inversion Hloop; subst e. apply onReceive_transport_error; assumption.
  - destruct (decodeResponseHeader (take n (read_buffer_ c)))
      as [[header payload] | e'] eqn:Hdecode.
    + destruct (requests_ c !! request_id header) eqn:Hfound; [discriminate |].
      inversion Hloop; subst e.
      apply (onReceive_unknown_request error n c header payload); assumption.
    + inversion Hloop; subst e. apply onReceive_decode_error; assumption.
Qed.

(** A report to an installed sink that returns, then the re-issue. *)
Lemma report_then_receive e (c c1 : Client) sink :
  on_error c = Some sink ->
  call_error sink e c = (Returns tt, c1) ->
  (report e ;;; receive) c =
    (outcome_of (receive c1), client_of (receive c1),
     EvErrorCallback sink e :: events_of (receive c1)).
Proof.
  intros Hsink Hcall.
  pose proof (report_sink e c sink Hsink) as Hreport.
  rewrite Hcall in Hreport. simpl in Hreport.
  rewrite (bind_returns _ _ _ _ _ _ Hreport). reflexivity.
Qed.

(** Without a sink the report is nothing and the re-issue is all there is. *)
Lemma report_then_receive_none e (c : Client) :
  on_error c = None -> (report e ;;; receive) c = receive c.
Proof.
  intros Hnone.
  rewrite (bind_returns _ _ _ _ _ _ (report_none e c Hnone)).
  destruct (receive c) as [[o c1] t]. reflexivity.
Qed.

(** *** Dispatch *)

Lemma complete_receive_received error datagram (c : Client) ops :
  receive_ops (socket_ c) = Waiting :: ops ->
  complete_receive error datagram c =
    onReceive error (length (take buffer_size datagram)) (received datagram c).
Proof.
  intros Hops. unfold complete_receive, received. rewrite bind_get, Hops.
  unfold bind, put.
  match goal with |- context [onReceive ?e ?k ?x] =>
    destruct (onReceive e k x) as [[o c2] t] end.
  reflexivity.
Qed.

(** C1: a datagram received without error, whose header decodes and carries
    the id of a registered entry: the dispatch is one call of the callback of
    that entry, with the decoded header and the payload view, on the client as
    it stands, followed by the re-issue when the callback has returned; what
    the callback does to the client is what the dispatch leaves, an exception
    of the callback is the exception of the dispatch.  No other handler and no
    error callback is called.  With a codec that leaves the view on the bytes
    after the header, the payload is the datagram (as the buffer took it)
    without its header. *)
Theorem onReceive_dispatches_once error n (c : Client) header payload entry :
  ec_bool error = false ->
  decodeResponseHeader (take n (read_buffer_ c)) = Ok (header, payload) ->
  requests_ c !! request_id header = Some entry ->
  onReceive error n c
  = match call_reply (on_reply entry) header payload c with
    | (Returns _, c1) =>
        (outcome_of (receive c1), client_of (receive c1),
         EvReply (on_reply entry) header payload :: events_of (receive c1))
    | (Throws ex, c1) =>
        (Throws ex, c1, [EvReply (on_reply entry) header payload])
    | (Undefined, c1) =>
        (Undefined, c1, [EvReply (on_reply entry) header payload])
    end
  /\ replies (events_of (onReceive error n c)) = [(on_reply entry, header, payload)]
  /\ (exists rest, events_of (onReceive error n c)
                   = EvReply (on_reply entry) header payload :: rest
                   /\ replies rest = [] /\ error_calls rest = [])
  /\ (forall header_size,
        codec_strips_header header_size ->
        payload = drop header_size (take n (read_buffer_ c))
        /\ forall c0 datagram,
             c = received datagram c0 ->
             n = length (take buffer_size datagram) ->
             payload = drop header_size (take buffer_size datagram)).
Proof.
  intros Hok Hdecode Hfound.
  rewrite (onReceive_found error n c header payload entry Hok Hdecode Hfound).
  pose proof (invoke_reply_run (on_reply entry) header payload c) as Hcall.
  destruct (call_reply (on_reply entry) header payload c) as [o c1].
  simpl in Hcall.
  assert (Hwire : forall header_size,
    codec_strips_header header_size ->
    payload = drop header_size (take n (read_buffer_ c))
    /\ forall c0 datagram,
         c = received datagram c0 ->
         n = length (take buffer_size datagram) ->
         payload = drop header_size (take buffer_size datagram)).
  { intros header_size Hcodec.
    pose proof (Hcodec _ _ _ Hdecode) as Hpayload.
    split; [exact Hpayload |].
    intros c0 datagram -> ->. rewrite Hpayload. simpl.
    rewrite take_app_length. reflexivity. }
  destruct o as [[] | ex |].
  - rewrite (bind_returns _ _ _ _ _ _ Hcall).
    destruct (receive_quiet c1) as (_ & Hreplies & Herrors & _).
    destruct (receive c1) as [[o2 c2] t2].
    unfold outcome_of, client_of, events_of in *. simpl in *.
    rewrite Hreplies. split; [reflexivity |]. split; [reflexivity |].
    split; [| exact Hwire].
    exists t2. repeat split; assumption.
  - rewrite (bind_throws _ _ _ _ _ _ Hcall).
    split; [reflexivity |]. split; [reflexivity |].
    split; [| exact Hwire]. exists []. repeat split.
  - rewrite (bind_undefined _ _ _ _ _ Hcall).
    split; [reflexivity |]. split; [reflexivity |].
    split; [| exact Hwire]. exists []. repeat split.
Qed.

(** The dispatch of a handler that does what [removeHandler] on its own
    token does: it returns, the handler was called once, and afterwards the
    registry has no entry under that id and every other entry as before. *)
Lemma self_removal_dispatch now rid callback token (c0 c1 c : Client)
    error n header payload :
  registerHandler now rid callback c0 = (Returns token, c1, []) ->
  requests_ c = requests_ c1 ->
  call_reply callback header payload c = as_user (removeHandler token) c ->
  ec_bool error = false ->
  decodeResponseHeader (take n (read_buffer_ c)) = Ok (header, payload) ->
  request_id header = rid ->
  outcome_of (onReceive error n c) = Returns tt
  /\ replies (events_of (onReceive error n c)) = [(callback, header, payload)]
  /\ requests_ (client_of (onReceive error n c)) !! rid = None
  /\ requests_ (client_of (onReceive error n c)) = delete rid (requests_ c).
Proof.
  intros Hregister Hsame Hbody Hok Hdecode Hid.
  destruct (requests_ c0 !! rid) as [old |] eqn:Hfree.
  { rewrite (registerHandler_taken now rid callback c0 old Hfree) in Hregister.
    discriminate. }
  rewrite (registerHandler_free now rid callback c0 Hfree) in Hregister.
  inversion Hregister; subst token c1. clear Hregister.
  set (entry := {| start_time := now; on_reply := callback |}) in *.
  assert (Hfound : requests_ c !! request_id header = Some entry).
  { rewrite Hid, Hsame. simpl. apply lookup_insert_eq. }
  rewrite (onReceive_found error n c header payload entry Hok Hdecode Hfound).
  pose proof (invoke_reply_run (on_reply entry) header payload c) as Hcall.
  simpl in Hcall. rewrite Hbody in Hcall.
  rewrite Hid in Hfound.
  unfold as_user in Hcall.
  rewrite (removeHandler_live rid c entry Hfound) in Hcall. simpl in Hcall.
  rewrite (bind_returns _ _ _ _ _ _ Hcall).
  match goal with
  | |- context [receive ?c2] =>
      destruct (receive_quiet c2) as (Hreturns & Hreplies & _ & Hrequests);
      destruct (receive c2) as [[o2 c3] t2]
  end.
  unfold outcome_of, events_of, client_of in *. simpl in *.
  rewrite Hreturns, Hreplies, Hrequests.
  repeat split. apply lookup_delete_eq.
Qed.

(** *** Errors of the loop *)

(** C4: a completion with a transport error other than cancellation, or a
    datagram whose header fails to decode: the loop calls the installed
    error sink with that error, once, calls no handler, and when the sink has
    returned goes on to [receive]; the socket being open there, the next
    receive is issued, so that one is outstanding again. *)
Theorem onReceive_failure_reported error n (c c1 : Client) sink e :
  (is_operation_canceled error = false /\ ec_bool error = true
     /\ e = Error_of_code (make_error_code (ec_value error)))
  \/ (ec_bool error = false
      /\ decodeResponseHeader (take n (read_buffer_ c)) = Err e) ->
  on_error c = Some sink ->
  call_error sink e c = (Returns tt, c1) ->
  onReceive error n c =
    (outcome_of (receive c1), client_of (receive c1),
     EvErrorCallback sink e :: events_of (receive c1))
  /\ error_calls (events_of (onReceive error n c)) = [(sink, e)]
  /\ replies (events_of (onReceive error n c)) = []
  /\ (is_open (socket_ c1) = true ->
      onReceive error n c =
        (Returns tt, set_socket (async_receive (socket_ c1)) c1,
         [EvErrorCallback sink e; EvAsyncReceive])
      /\ receive_ops (socket_ (client_of (onReceive error n c)))
         = receive_ops (socket_ c1) ++ [Waiting]).
Proof.
  intros Hfailure Hsink Hcall.
  assert (Hbranch : onReceive error n c = (report e ;;; receive) c).
  { destruct Hfailure as [(Hcancel & Herr & ->) | (Hok & Hdecode)].
    - apply onReceive_transport_error; assumption.
    - apply onReceive_decode_error; assumption. }
  rewrite Hbranch, (report_then_receive e c c1 sink Hsink Hcall).
  destruct (receive_quiet c1) as (_ & Hreplies & Herrors & _).
  split; [reflexivity |]. unfold events_of at 1 3. simpl.
  rewrite Herrors, Hreplies.
  split; [reflexivity |]. split; [reflexivity |].
  intros Hopen. rewrite (receive_open c1 Hopen). split; reflexivity.
Qed.

(** C5: a datagram received without error whose header decodes to an id
    that no entry has: no handler is called, the installed sink is called
    once, with the unknown-request error whose message names the id, and when
    the sink has returned the loop goes on to [receive]; the socket being
    open there, the next receive is issued. *)
Theorem onReceive_unknown_request_reported error n (c c1 : Client) sink
    header payload :
  ec_bool error = false ->
  decodeResponseHeader (take n (read_buffer_ c)) = Ok (header, payload) ->
  requests_ c !! request_id header = None ->
  on_error c = Some sink ->
  call_error sink (unknown_request_error (request_id header)) c = (Returns tt, c1) ->
  onReceive error n c =
    (outcome_of (receive c1), client_of (receive c1),
     EvErrorCallback sink (unknown_request_error (request_id header))
       :: events_of (receive c1))
  /\ replies (events_of (onReceive error n c)) = []
  /\ error_calls (events_of (onReceive error n c))
     = [(sink, unknown_request_error (request_id header))]
  /\ unknown_request_error (request_id header)
     = {| code := {| ec_value := unknown_request; ec_category := yaskawa_category |};
          details := String.append "no handler for request id "
                       (pretty (request_id header)) |}
  /\ (is_open (socket_ c1) = true ->
      onReceive error n c =
        (Returns tt, set_socket (async_receive (socket_ c1)) c1,
         [EvErrorCallback sink (unknown_request_error (request_id header));
          EvAsyncReceive])).
Proof.
  intros Hok Hdecode Hnone Hsink Hcall.
  rewrite (onReceive_unknown_request error n c header payload Hok Hdecode Hnone).
  rewrite (report_then_receive _ c c1 sink Hsink Hcall).
  destruct (receive_quiet c1) as (_ & Hreplies & Herrors & _).
  split; [reflexivity |]. unfold events_of at 1 3. simpl.
  rewrite Herrors, Hreplies.
  split; [reflexivity |]. split; [reflexivity |]. split; [reflexivity |].
  intros Hopen. rewrite (receive_open c1 Hopen). reflexivity.
Qed.

Lemma loop_error_set_on_error error n (c : Client) sink :
  loop_error error n (set_on_error sink c) = loop_error error n c.
Proof. reflexivity. Qed.

Lemma receive_set_on_error (c : Client) sink :
  receive (set_on_error sink c) =
    (outcome_of (receive c), set_on_error sink (client_of (receive c)),
     events_of (receive c)).
Proof.
  destruct (is_open (socket_ c)) eqn:Hopen.
  - rewrite (receive_open c Hopen), (receive_open (set_on_error sink c) Hopen).
    reflexivity.
  - rewrite (receive_closed c Hopen), (receive_closed (set_on_error sink c) Hopen).
    reflexivity.
Qed.

(** C10: with no error sink installed, a transport error, a decode failure
    or a datagram for an unknown request is dropped: no error callback and no
    handler is called, the call returns, and all that happens is the re-issue
    of the receive ([receive], which issues one on an open socket).  With a
    sink installed that only observes, the outcome, the client and the
    re-issue are the same, with the one notification before it. *)
Theorem onReceive_without_sink error n (c : Client) e :
  on_error c = None ->
  loop_error error n c = Some e ->
  onReceive error n c = receive c
  /\ outcome_of (onReceive error n c) = Returns tt
  /\ replies (events_of (onReceive error n c)) = []
  /\ error_calls (events_of (onReceive error n c)) = []
  /\ (is_open (socket_ c) = true ->
      onReceive error n c =
        (Returns tt, set_socket (async_receive (socket_ c)) c, [EvAsyncReceive]))
  /\ (forall sink,
        call_error sink e (set_on_error (Some sink) c)
          = (Returns tt, set_on_error (Some sink) c) ->
        onReceive error n (set_on_error (Some sink) c) =
          (outcome_of (onReceive error n c),
           set_on_error (Some sink) (client_of (onReceive error n c)),
           EvErrorCallback sink e :: events_of (onReceive error n c))).
Proof.
  intros Hnone Hloop.
  assert (Hrun : onReceive error n c = receive c).
  { rewrite (onReceive_reports error n c e Hloop).
    apply report_then_receive_none. exact Hnone. }
  destruct (receive_quiet c) as (Hreturns & Hreplies & Herrors & _).
  split; [exact Hrun |]. rewrite Hrun.
  split; [exact Hreturns |]. split; [exact Hreplies |]. split; [exact Herrors |].
  split.
  - apply receive_open.
  - intros sink Hobserver.
    rewrite (onReceive_reports error n (set_on_error (Some sink) c) e)
      by (rewrite loop_error_set_on_error; exact Hloop).
    pose proof (report_sink e (set_on_error (Some sink) c) sink eq_refl) as Hreport.
    rewrite Hobserver in Hreport. simpl in Hreport.
    rewrite (bind_returns _ _ _ _ _ _ Hreport), receive_set_on_error.
    reflexivity.
Qed.

(** *** Cancellation and close *)

Lemma complete_receive_idle error datagram (c : Client) :
  receive_ops (socket_ c) = [] ->
  complete_receive error datagram c = (Returns tt, c, []).
Proof.
  intros Hidle. unfold complete_receive. rewrite bind_get, Hidle. reflexivity.
Qed.

Lemma complete_receive_cancelled error datagram (c : Client) ops :
  receive_ops (socket_ c) = Cancelled :: ops ->
  complete_receive error datagram c =
    (Returns tt, set_socket (pop_receive (socket_ c)) c, []).
Proof.
  intros Hops. unfold complete_receive. rewrite bind_get, Hops.
  unfold bind, put. rewrite onReceive_canceled by reflexivity. reflexivity.
Qed.

Lemma complete_receive_waiting error datagram (c : Client) ops :
  receive_ops (socket_ c) = Waiting :: ops ->
  complete_receive error datagram c =
    onReceive error (length (take buffer_size datagram))
      (set_read_buffer
         (take buffer_size datagram
          ++ drop (length (take buffer_size datagram)) (read_buffer_ c))
         (set_socket (pop_receive (socket_ c)) c)).
Proof.
  intros Hops. unfold complete_receive. rewrite bind_get, Hops.
  unfold bind, put.
  match goal with |- context [onReceive ?e ?k ?x] =>
    destruct (onReceive e k x) as [[o c2] t] end.
  reflexivity.
Qed.

(** With nothing but cancelled receives outstanding, whatever the transport
    offers goes nowhere: no event, and the client keeps its registry, its
    sink and the state of its socket. *)
Lemma run_cancelled completions : forall (c : Client),
  Forall (fun op => op = Cancelled) (receive_ops (socket_ c)) ->
  (run completions c).2 = []
  /\ requests_ (run completions c).1 = requests_ c
  /\ on_error (run completions c).1 = on_error c
  /\ is_open (socket_ (run completions c).1) = is_open (socket_ c).
Proof.
  induction completions as [| [error datagram] completions IH]; intros c Hops.
  - repeat split.
  - simpl. destruct (receive_ops (socket_ c)) as [| op ops] eqn:Hqueue.
    + rewrite (complete_receive_idle error datagram c Hqueue).
      destruct (IH c) as (Hevents & Hrequests & Hsink & Hopen).
      { rewrite Hqueue. constructor. }
      destruct (run completions c) as [c2 t2]. simpl in *.
      subst t2. repeat split; assumption.
    + inversion Hops as [| ? ? Hop Hrest]; subst. 
      rewrite (complete_receive_cancelled error datagram c ops Hqueue).
      destruct (IH (set_socket (pop_receive (socket_ c)) c))
        as (Hevents & Hrequests & Hsink & Hopen).
      { simpl. rewrite Hqueue. exact Hrest. }
      destruct (run completions (set_socket (pop_receive (socket_ c)) c))
        as [c2 t2]. simpl in *.
      subst t2. repeat split; assumption.
Qed.

(** C6: a completion that signals cancellation ends the loop quietly:
    [onReceive] returns at once, with no error callback, no handler and no
    new receive, the client untouched; and when the cancelled receive was the
    only one outstanding, nothing the transport offers afterwards is seen. *)
Theorem onReceive_cancellation_stops error n (c : Client) :
  is_operation_canceled error = true ->
  onReceive error n c = (Returns tt, c, [])
  /\ (forall op datagram later,
        receive_ops (socket_ c) = [op] ->
        (run ((error, datagram) :: later) c).2 = []
        /\ requests_ (run ((error, datagram) :: later) c).1 = requests_ c
        /\ receive_ops (socket_ (run ((error, datagram) :: later) c).1) = []).
Proof.
  intros Hcancel. split; [apply onReceive_canceled; exact Hcancel |].
  intros op datagram later Hop.
  assert (Hstep : exists c1,
    complete_receive error datagram c = (Returns tt, c1, [])
    /\ requests_ c1 = requests_ c /\ receive_ops (socket_ c1) = []).
  { destruct op.
    - rewrite (complete_receive_waiting error datagram c [] Hop).
      rewrite onReceive_canceled by exact Hcancel.
      eexists. split; [reflexivity |]. simpl. rewrite Hop. split; reflexivity.
    - rewrite (complete_receive_cancelled error datagram c [] Hop).
      eexists. split; [reflexivity |]. simpl. rewrite Hop. split; reflexivity. }
  destruct Hstep as (c1 & Hstep & Hrequests & Hqueue).
  simpl. rewrite Hstep.
  assert (Hidle : forall completions, run completions c1 = (c1, [])).
  { induction completions as [| [error' datagram'] completions IH]; [reflexivity |].
    simpl. rewrite (complete_receive_idle error' datagram' c1 Hqueue), IH.
    reflexivity. }
  rewrite Hidle. simpl. repeat split; assumption.
Qed.

Lemma close_run (c : Client) :
  close c = (Returns tt, set_socket (socket_close (socket_ c)) c, []).
Proof. unfold close. rewrite bind_get. reflexivity. Qed.

Lemma close_cancels (c : Client) :
  Forall (fun op => op = Cancelled)
    (receive_ops (socket_ (set_socket (socket_close (socket_ c)) c))).
Proof.
  simpl. apply Forall_forall. intros op Hin.
  apply list_elem_of_fmap in Hin as (? & -> & _). reflexivity.
Qed.

(** A handler that closes the client: the dispatch calls it and, the socket
    being closed when [receive] is reached, issues nothing. *)
Lemma onReceive_handler_closes error n (c : Client) header payload entry :
  ec_bool error = false ->
  decodeResponseHeader (take n (read_buffer_ c)) = Ok (header, payload) ->
  requests_ c !! request_id header = Some entry ->
  call_reply (on_reply entry) header payload c = as_user close c ->
  onReceive error n c =
    (Returns tt, set_socket (socket_close (socket_ c)) c,
     [EvReply (on_reply entry) header payload]).
Proof.
  intros Hok Hdecode Hfound Hbody.
  rewrite (onReceive_found error n c header payload entry Hok Hdecode Hfound).
  pose proof (invoke_reply_run (on_reply entry) header payload c) as Hcall.
  rewrite Hbody in Hcall. unfold as_user in Hcall.
  rewrite close_run in Hcall. simpl in Hcall.
  rewrite (bind_returns _ _ _ _ _ _ Hcall).
  rewrite receive_closed by reflexivity. reflexivity.
Qed.

(** *** Connect *)

Lemma connect_run host port timeout callback (c : Client) :
  connect host port timeout callback c =
    (Returns tt,
     set_socket (asyncResolveConnect host port timeout callback (socket_ c)) c, []).
Proof. unfold connect. rewrite bind_get. reflexivity. Qed.

(** [onConnect] calls the callback once, with the error, whatever the
    callback does; and it issues a receive only when there was no error. *)
Lemma onConnect_calls_once error callback (c : Client) :
  error_calls (events_of (onConnect error callback c)) = [(callback, error)]
  /\ replies (events_of (onConnect error callback c)) = []
  /\ (In EvAsyncReceive (events_of (onConnect error callback c)) ->
      Error_bool error = false).
Proof.
  unfold onConnect.
  pose proof (invoke_error_run callback error c) as Hcall.
  destruct (call_error callback error c) as [o c1]. simpl in Hcall.
  destruct o as [[] | ex |].
  - rewrite (bind_returns _ _ _ _ _ _ Hcall). unfold events_of at 1 3 5. simpl.
    destruct (Error_bool error); simpl.
    + repeat split. intros [Habs | []]. discriminate.
    + destruct (receive_quiet c1) as (_ & Hreplies & Herrors & _).
      rewrite Hreplies, Herrors. repeat split.
  - rewrite (bind_throws _ _ _ _ _ _ Hcall). repeat split.
    simpl. intros [Habs | []]. discriminate.
  - rewrite (bind_undefined _ _ _ _ _ Hcall). repeat split.
    simpl. intros [Habs | []]. discriminate.
Qed.

(** C8: a connect attempt calls nothing when it is started; when it
    completes, the callback is called once, with the error of the attempt.
    With an error nothing else happens: no receive is issued.  With no error
    the client goes on, when the callback has returned, to [receive]: the
    socket being open there, the first receive is issued.  So the loop is
    started exactly when the connect succeeded. *)
Theorem connect_completion host port timeout callback error opened
    (c c2 : Client) :
  connect_ops (socket_ c) = [] ->
  call_error callback error
    (set_socket {| is_open := if Error_bool error then opened else true;
                   receive_ops := receive_ops (socket_ c);
                   connect_ops := [] |} c)
    = (Returns tt, c2) ->
  let completion :=
    complete_connect error opened
      (client_of (connect host port timeout callback c)) in
  events_of (connect host port timeout callback c) = []
  /\ error_calls (events_of completion) = [(callback, error)]
  /\ replies (events_of completion) = []
  /\ (Error_bool error = true ->
      completion = (Returns tt, c2, [EvErrorCallback callback error]))
  /\ (Error_bool error = false ->
      completion =
        (outcome_of (receive c2), client_of (receive c2),
         EvErrorCallback callback error :: events_of (receive c2)))
  /\ (In EvAsyncReceive (events_of completion) -> Error_bool error = false)
  /\ (is_open (socket_ c2) = true ->
      (In EvAsyncReceive (events_of completion) <-> Error_bool error = false)
      /\ (Error_bool error = false ->
          completion =
            (Returns tt, set_socket (async_receive (socket_ c2)) c2,
             [EvErrorCallback callback error; EvAsyncReceive]))).
Proof.
  intros Hnone Hcall completion. subst completion.
  rewrite connect_run. unfold events_of at 1, client_of. simpl.
  split; [reflexivity |].
  assert (Hrun : complete_connect error opened
      (set_socket (asyncResolveConnect host port timeout callback (socket_ c)) c)
    = if Error_bool error
      then (Returns tt, c2, [EvErrorCallback callback error])
      else (outcome_of (receive c2), client_of (receive c2),
            EvErrorCallback callback error :: events_of (receive c2))).
  { unfold complete_connect. rewrite bind_get. simpl. rewrite Hnone. simpl.
    unfold bind at 1, put. unfold onConnect.
    pose proof (invoke_error_run callback error
      (set_socket {| is_open := if Error_bool error then opened else true;
                     receive_ops := receive_ops (socket_ c);
                     connect_ops := [] |} c)) as Hinvoke.
    rewrite Hcall in Hinvoke. simpl in Hinvoke.
    unfold set_socket in *. simpl in *.
    rewrite (bind_returns _ _ _ _ _ _ Hinvoke).
    destruct (Error_bool error) eqn:Herr; reflexivity. }
  rewrite Hrun.
  destruct (receive_quiet c2) as (_ & Hreplies & Herrors & _).
  destruct (Error_bool error) eqn:Herr.
  - unfold events_of. simpl.
    repeat split; try reflexivity; try discriminate.
    + intros [Habs | []]. discriminate.
    + intros [Habs | []]. discriminate.
  - assert (Hissue : is_open (socket_ c2) = true ->
              receive c2 =
                (Returns tt, set_socket (async_receive (socket_ c2)) c2,
                 [EvAsyncReceive]))
      by apply receive_open.
    destruct (receive c2) as [[o3 c3] t3].
    unfold events_of, outcome_of, client_of in *. simpl in *.
    rewrite Herrors, Hreplies.
    split; [reflexivity |]. split; [reflexivity |]. split; [discriminate |].
    split; [reflexivity |]. split; [reflexivity |].
    intros Hopen. specialize (Hissue Hopen). inversion Hissue.
    split; [split; [reflexivity | intros _; right; left; reflexivity] |].
    reflexivity.
Qed.

End EngineProperties.

(** * More of the registry *)

Section RegistryComposition.
Context `{Types}.

(** X1: registering a handler under a free id and removing it through the
    token that came back leaves the client exactly as it was. *)
Theorem register_then_remove now rid handler (c : Client) :
  requests_ c !! rid = None ->
  (token <- registerHandler now rid handler ;; removeHandler token) c
  = (Returns tt, c, []).
Proof.
  intros Hfree.
  rewrite (bind_returns _ _ _ _ _ _ (registerHandler_free now rid handler c Hfree)).
  rewrite (removeHandler_live rid _ {| start_time := now; on_reply := handler |})
    by (simpl; apply lookup_insert_eq).
  destruct c as [socket buffer requests sink]. simpl in Hfree.
  unfold outcome_of, client_of, events_of, set_requests. simpl.
  rewrite delete_insert_eq, (delete_id _ _ Hfree). reflexivity.
Qed.

(** X2: an id is free again once its handler is removed: removing through
    the token of a registered id and registering under that id succeeds, and
    the net effect is that the entry of the id is the new one, every other
    entry being as before. *)
Theorem remove_then_register rid now handler (c : Client) entry :
  requests_ c !! rid = Some entry ->
  (removeHandler rid ;;; registerHandler now rid handler) c
  = (Returns rid,
     set_requests
       (<[rid := {| start_time := now; on_reply := handler |}]> (requests_ c)) c,
     [])
  /\ forall k, k <> rid ->
       requests_ (client_of
         ((removeHandler rid ;;; registerHandler now rid handler) c)) !! k
       = requests_ c !! k.
Proof.
  intros Hlive.
  assert (Hrun : (removeHandler rid ;;; registerHandler now rid handler) c
    = (Returns rid,
       set_requests
         (<[rid := {| start_time := now; on_reply := handler |}]> (requests_ c)) c,
       [])).
  { rewrite (bind_returns _ _ _ _ _ _ (removeHandler_live rid c entry Hlive)).
    rewrite registerHandler_free by (simpl; apply lookup_delete_eq).
    unfold outcome_of, client_of, events_of, set_requests. simpl.
    rewrite insert_delete_eq. reflexivity. }
  split; [exact Hrun |].
  intros k Hne. rewrite Hrun. unfold client_of. simpl.
  apply lookup_insert_ne. congruence.
Qed.

(** X3: a token is good for one removal: the second [removeHandler] through
    the same token erases through an iterator whose element is gone, which is
    undefined behaviour. *)
Theorem remove_twice token (c : Client) entry :
  requests_ c !! token = Some entry ->
  (removeHandler token ;;; removeHandler token) c
  = (Undefined, set_requests (delete token (requests_ c)) c, []).
Proof.
  intros Hlive.
  rewrite (bind_returns _ _ _ _ _ _ (removeHandler_live token c entry Hlive)).
  unfold removeHandler at 1 2 3. rewrite bind_get. simpl.
  rewrite lookup_delete_eq. reflexivity.
Qed.

Lemma ids_in_range_size (requests : gmap Z HandlerEntry) :
  ids_in_range requests ->
  dom requests ⊆ (list_to_set (seqZ 0 256) : gset Z)
  /\ (size requests <= 256)%nat.
Proof.
  intros Hrange.
  assert (Hsub : dom requests ⊆ (list_to_set (seqZ 0 256) : gset Z)).
  { intros k Hk. apply elem_of_dom in Hk as [entry Hk].
    apply elem_of_list_to_set, elem_of_seqZ.
    pose proof (Hrange k entry Hk) as Hbounds. simpl in Hbounds. lia. }
  split; [exact Hsub |].
  rewrite <- (size_dom requests).
  etransitivity; [apply subseteq_size; exact Hsub |].
  rewrite size_list_to_set by apply NoDup_seqZ.
  rewrite length_seqZ. reflexivity.
Qed.

(** X4: request ids are [std::uint8_t] values, so the registry never holds
    more than 256 entries; when it holds 256, every id is taken and
    [registerHandler] throws whatever id it is given.  Registering keeps the
    keys in that range. *)
Theorem registry_capacity now rid handler (c : Client) :
  ids_in_range (requests_ c) ->
  0 <= rid < 256 ->
  (size (requests_ c) <= 256)%nat
  /\ ids_in_range (requests_ (client_of (registerHandler now rid handler c)))
  /\ (size (requests_ c) = 256%nat ->
      outcome_of (registerHandler now rid handler c)
      = Throws (logic_error
          (String.append "request_id "
             (String.append (pretty rid)
                " is already taken, can not register handler")))
      /\ client_of (registerHandler now rid handler c) = c).
Proof.
  intros Hrange Hrid.
  destruct (ids_in_range_size (requests_ c) Hrange) as [Hsub Hsize].
  split; [exact Hsize |]. split.
  - destruct (requests_ c !! rid) as [entry |] eqn:Hlookup.
    + rewrite (registerHandler_taken now rid handler c entry Hlookup).
      exact Hrange.
    + rewrite (registerHandler_free now rid handler c Hlookup).
      unfold client_of, ids_in_range. simpl.
      apply map_Forall_insert_2; [exact Hrid | exact Hrange].
  - intros Hfull.
    assert (Hall : dom (requests_ c) = (list_to_set (seqZ 0 256) : gset Z)).
    { apply set_subseteq_size_eq; [exact Hsub |].
      rewrite size_dom, Hfull.
      rewrite size_list_to_set by apply NoDup_seqZ.
      rewrite length_seqZ. reflexivity. }
    assert (Htaken : is_Some (requests_ c !! rid)).
    { apply elem_of_dom. rewrite Hall.
      apply elem_of_list_to_set, elem_of_seqZ. lia. }
    destruct Htaken as [entry Hlookup].
    rewrite (registerHandler_taken now rid handler c entry Hlookup).
    split; reflexivity.
Qed.

End RegistryComposition.

(** * More of the engine *)

Section EngineComposition.
Context `{Types} {codec : Codec} {user : UserCode}.

Lemma receives_issued_app (t1 t2 : list Event) :
  receives_issued (t1 ++ t2) = (receives_issued t1 + receives_issued t2)%nat.
Proof.
  induction t1 as [| ev t1 IH]; [reflexivity |].
  destruct ev; simpl; rewrite IH; reflexivity.
Qed.

Lemma receive_frame (c : Client) :
  read_buffer_ (client_of (receive c)) = read_buffer_ c
  /\ on_error (client_of (receive c)) = on_error c.
Proof.
  destruct (is_open (socket_ c)) eqn:Hopen.
  - rewrite (receive_open c Hopen). split; reflexivity.
  - rewrite (receive_closed c Hopen). split; reflexivity.
Qed.

(** A step of user code followed by [receive]: the trace of the step, then
    at most the one receive, and none unless the step returned. *)
Lemma then_receive (m : M unit) (c : Client) :
  exists issued,
    events_of ((m ;;; receive) c) = events_of (m c) ++ issued
    /\ (issued = [] \/ issued = [EvAsyncReceive])
    /\ (outcome_of (m c) <> Returns tt -> issued = [])
    /\ requests_ (client_of ((m ;;; receive) c)) = requests_ (client_of (m c)).
Proof.
  unfold bind. destruct (m c) as [[o c1] t]. destruct o as [[] | ex |].
  - destruct (is_open (socket_ c1)) eqn:Hopen.
    + rewrite (receive_open c1 Hopen). exists [EvAsyncReceive].
      repeat split; [right; reflexivity | intros Hne; contradiction].
    + rewrite (receive_closed c1 Hopen). exists [].
      repeat split. left. reflexivity.
  - exists []. unfold events_of. simpl. rewrite app_nil_r.
    repeat split. left. reflexivity.
  - exists []. unfold events_of. simpl. rewrite app_nil_r.
    repeat split. left. reflexivity.
Qed.

(** A completion that is no cancellation and reports nothing is a reply for
    a registered handler. *)
Lemma loop_error_none error n (c : Client) :
  is_operation_canceled error = false ->
  loop_error error n c = None ->
  exists header payload entry,
    ec_bool error = false
    /\ decodeResponseHeader (take n (read_buffer_ c)) = Ok (header, payload)
    /\ requests_ c !! request_id header = Some entry.
Proof.
  unfold loop_error. intros Hcancel Hnone. rewrite Hcancel in Hnone.
  destruct (ec_bool error); [discriminate |].
  destruct (decodeResponseHeader (take n (read_buffer_ c)))
    as [[header payload] | e]; [| discriminate].
  destruct (requests_ c !! request_id header) as [entry |] eqn:Hfound;
    [| discriminate].
  exists header, payload, entry. repeat split. exact Hfound.
Qed.

(** The step of user code in [onReceive], by the kind of completion. *)
Lemma onReceive_step error n (c : Client) :
  is_operation_canceled error = false ->
  exists m : M unit,
    onReceive error n c = (m ;;; receive) c
    /\ ((m c = (Returns tt, c, []) /\ on_error c = None)
        \/ (exists sink e,
              on_error c = Some sink
              /\ m c = ((call_error sink e c).1, (call_error sink e c).2,
                        [EvErrorCallback sink e]))
        \/ (exists header payload entry,
              requests_ c !! request_id header = Some entry
              /\ m c = ((call_reply (on_reply entry) header payload c).1,
                        (call_reply (on_reply entry) header payload c).2,
                        [EvReply (on_reply entry) header payload]))).
Proof.
  intros Hcancel.
  destruct (loop_error error n c) as [e |] eqn:Hloop.
  - exists (report e). split; [apply onReceive_reports; exact Hloop |].
    destruct (on_error c) as [sink |] eqn:Hsink.
    + right. left. exists sink, e. split; [reflexivity |].
      apply report_sink. exact Hsink.
    + left. split; [apply report_none; exact Hsink | reflexivity].
  - destruct (loop_error_none error n c Hcancel Hloop)
      as (header & payload & entry & Hok & Hdecode & Hfound).
    exists (invoke_reply (on_reply entry) header payload).
    split; [apply onReceive_found; assumption |].
    right. right. exists header, payload, entry.
    split; [exact Hfound | apply invoke_reply_run].
Qed.

(** X5: whatever the completion and whatever user code does, [onReceive]
    makes at most one call into user code, a handler or the error sink and
    never both, and issues at most one receive, after that call. *)
Theorem onReceive_trace_shape error n (c : Client) :
  exists calls issued,
    events_of (onReceive error n c) = calls ++ issued
    /\ (calls = []
        \/ (exists callback header payload,
              calls = [EvReply callback header payload])
        \/ (exists callback e, calls = [EvErrorCallback callback e]))
    /\ (issued = [] \/ issued = [EvAsyncReceive]).
Proof.
  destruct (is_operation_canceled error) eqn:Hcancel.
  - rewrite (onReceive_canceled error n c Hcancel).
    exists [], []. repeat split; left; reflexivity.
  - destruct (onReceive_step error n c Hcancel) as (m & Hrun & Hstep).
    rewrite Hrun.
    destruct (then_receive m c) as (issued & Hevents & Hissued & _).
    exists (events_of (m c)), issued.
    split; [exact Hevents |]. split; [| exact Hissued].
    destruct Hstep as [[Hm _] | [(sink & e & _ & Hm) | (header & payload & entry & _ & Hm)]];
      rewrite Hm; unfold events_of; simpl.
    + left. reflexivity.
    + right. right. exists sink, e. reflexivity.
    + right. left. exists (on_reply entry), header, payload. reflexivity.
Qed.

(** X6: an exception that leaves a handler leaves [onReceive] too: the
    dispatch throws it on, and no receive is issued, so the loop has ended. *)
Theorem handler_exception_ends_loop error n (c c1 : Client) header payload
    entry ex :
  ec_bool error = false ->
  decodeResponseHeader (take n (read_buffer_ c)) = Ok (header, payload) ->
  requests_ c !! request_id header = Some entry ->
  call_reply (on_reply entry) header payload c = (Throws ex, c1) ->
  onReceive error n c
  = (Throws ex, c1, [EvReply (on_reply entry) header payload]).
Proof.
  intros Hok Hdecode Hfound Hthrows.
  rewrite (onReceive_found error n c header payload entry Hok Hdecode Hfound).
  pose proof (invoke_reply_run (on_reply entry) header payload c) as Hcall.
  rewrite Hthrows in Hcall. simpl in Hcall.
  apply (bind_throws _ _ _ _ _ _ Hcall).
Qed.

(** X7: the same for the error sink: when it throws on a transport error, a
    decode failure or an unknown request, [onReceive] throws the exception on
    and issues no receive. *)
Theorem sink_exception_ends_loop error n (c c1 : Client) sink e ex :
  loop_error error n c = Some e ->
  on_error c = Some sink ->
  call_error sink e c = (Throws ex, c1) ->
  onReceive error n c = (Throws ex, c1, [EvErrorCallback sink e]).
Proof.
  intros Hloop Hsink Hthrows.
  rewrite (onReceive_reports error n c e Hloop).
  pose proof (report_sink e c sink Hsink) as Hreport.
  rewrite Hthrows in Hreport. simpl in Hreport.
  apply (bind_throws _ _ _ _ _ _ Hreport).
Qed.

Lemma onReceive_keeps_registry error n (c : Client) :
  user_code_keeps_registry ->
  requests_ (client_of (onReceive error n c)) = requests_ c.
Proof.
  intros [Hreply Hsink].
  destruct (is_operation_canceled error) eqn:Hcancel.
  - rewrite (onReceive_canceled error n c Hcancel). reflexivity.
  - destruct (onReceive_step error n c Hcancel) as (m & Hrun & Hstep).
    rewrite Hrun.
    destruct (then_receive m c) as (_ & _ & _ & _ & Hrequests).
    rewrite Hrequests.
    destruct Hstep as [[Hm _] | [(sink & e & _ & Hm) | (header & payload & entry & _ & Hm)]];
      rewrite Hm; unfold client_of; simpl.
    + reflexivity.
    + apply Hsink.
    + apply Hreply.
Qed.

(** X8: the engine itself never adds, removes or changes an entry of the
    registry: with user code that leaves the registry alone, the registry
    after any run of completions is the one before, so a handler stays
    registered for every later datagram of its id. *)
Theorem run_keeps_registry completions : forall (c : Client),
  user_code_keeps_registry ->
  requests_ (run completions c).1 = requests_ c.
Proof.
  induction completions as [| [error datagram] completions IH]; intros c Huser.
  - reflexivity.
  - simpl.
    assert (Hstep : requests_ (client_of (complete_receive error datagram c))
                    = requests_ c).
    { destruct (receive_ops (socket_ c)) as [| [|] ops] eqn:Hops.
      - rewrite (complete_receive_idle error datagram c Hops). reflexivity.
      - rewrite (complete_receive_waiting error datagram c ops Hops).
        rewrite (onReceive_keeps_registry _ _ _ Huser). reflexivity.
      - rewrite (complete_receive_cancelled error datagram c ops Hops).
        reflexivity. }
    destruct (complete_receive error datagram c) as [[o c1] t1].
    unfold client_of in Hstep. simpl in Hstep.
    specialize (IH c1 Huser).
    destruct (run completions c1) as [c2 t2]. simpl in *.
    rewrite IH. exact Hstep.
Qed.

(** With user code that returns and leaves the socket alone, a completion
    that is no cancellation, on an open socket, ends with one more receive
    issued. *)
Lemma onReceive_continues error n (c : Client) :
  user_code_keeps_socket ->
  is_operation_canceled error = false ->
  is_open (socket_ c) = true ->
  outcome_of (onReceive error n c) = Returns tt
  /\ socket_ (client_of (onReceive error n c)) = async_receive (socket_ c)
  /\ receives_issued (events_of (onReceive error n c)) = 1%nat.
Proof.
  intros [Hreply Hsink] Hcancel Hopen.
  destruct (onReceive_step error n c Hcancel) as (m & Hrun & Hstep).
  rewrite Hrun.
  assert (Hm : exists c1 t,
    m c = (Returns tt, c1, t) /\ socket_ c1 = socket_ c
    /\ receives_issued t = 0%nat).
  { destruct Hstep as [[Hm _] | [(sink & e & _ & Hm) | (header & payload & entry & _ & Hm)]].
    - exists c, []. repeat split. exact Hm.
    - destruct (Hsink sink e c) as [Hreturns Hsocket].
      rewrite Hreturns in Hm. eexists _, _. split; [exact Hm |].
      split; [exact Hsocket | reflexivity].
    - destruct (Hreply (on_reply entry) header payload c) as [Hreturns Hsocket].
      rewrite Hreturns in Hm. eexists _, _. split; [exact Hm |].
      split; [exact Hsocket | reflexivity]. }
  destruct Hm as (c1 & t & Hm & Hsocket & Hnone).
  rewrite (bind_returns _ _ _ _ _ _ Hm).
  rewrite receive_open by (rewrite Hsocket; exact Hopen).
  unfold outcome_of, client_of, events_of. simpl.
  rewrite receives_issued_app, Hnone, Hsocket. repeat split.
Qed.

(** X9: the loop keeps going: with user code that returns and leaves the
    socket alone, on an open socket with one receive outstanding, after any
    run of completions none of which is a cancellation the socket is open and
    one receive is outstanding again, one receive having been issued for each
    completion; so errors, undecodable datagrams and unknown ids never end the
    loop, and never is more than one receive in flight. *)
Theorem run_keeps_receiving completions : forall (c : Client),
  user_code_keeps_socket ->
  none_cancelled completions ->
  is_open (socket_ c) = true ->
  receive_ops (socket_ c) = [Waiting] ->
  is_open (socket_ (run completions c).1) = true
  /\ receive_ops (socket_ (run completions c).1) = [Waiting]
  /\ receives_issued (run completions c).2 = length completions.
Proof.
  induction completions as [| [error datagram] completions IH];
    intros c Huser Hnone Hopen Hops.
  - repeat split; assumption.
  - apply Forall_cons in Hnone as [Hcancel Hnone]. simpl in Hcancel.
    simpl. rewrite (complete_receive_waiting error datagram c [] Hops).
    match goal with |- context [onReceive error ?k ?c1] =>
      destruct (onReceive_continues error k c1 Huser Hcancel)
        as (_ & Hsocket & Hissued); [simpl; exact Hopen |];
      destruct (onReceive error k c1) as [[o c2] t1]
    end.
    unfold client_of, events_of in *. simpl in *.
    destruct (IH c2 Huser Hnone) as (Hopen2 & Hops2 & Hissued2).
    { rewrite Hsocket. simpl. exact Hopen. }
    { rewrite Hsocket. simpl. rewrite Hops. reflexivity. }
    destruct (run completions c2) as [c3 t2]. simpl in *.
    rewrite receives_issued_app, Hissued, Hissued2.
    repeat split; assumption.
Qed.

(** X10: an error sink that closes the client ends the loop: the error is
    reported, no receive is issued after it, and nothing the transport offers
    later calls any user code. *)
Theorem sink_closes error n (c : Client) sink e completions :
  loop_error error n c = Some e ->
  on_error c = Some sink ->
  call_error sink e c = as_user close c ->
  onReceive error n c
  = (Returns tt, set_socket (socket_close (socket_ c)) c,
     [EvErrorCallback sink e])
  /\ (run completions (client_of (onReceive error n c))).2 = [].
Proof.
  intros Hloop Hsink Hbody.
  assert (Hrun : onReceive error n c
    = (Returns tt, set_socket (socket_close (socket_ c)) c,
       [EvErrorCallback sink e])).
  { rewrite (onReceive_reports error n c e Hloop).
    pose proof (report_sink e c sink Hsink) as Hreport.
    rewrite Hbody in Hreport. unfold as_user in Hreport.
    rewrite close_run in Hreport. simpl in Hreport.
    rewrite (bind_returns _ _ _ _ _ _ Hreport).
    rewrite receive_closed by reflexivity. reflexivity. }
  split; [exact Hrun |]. rewrite Hrun. unfold client_of. simpl.
  apply (run_cancelled completions _ (close_cancels c)).
Qed.

(** X11: a connect callback that closes the client keeps the loop from
    starting, also when the connect succeeded: [receive] finds the socket
    closed. *)
Theorem connect_callback_closes error callback (c : Client) :
  call_error callback error c = as_user close c ->
  onConnect error callback c
  = (Returns tt, set_socket (socket_close (socket_ c)) c,
     [EvErrorCallback callback error]).
Proof.
  intros Hbody. unfold onConnect.
  pose proof (invoke_error_run callback error c) as Hcall.
  rewrite Hbody in Hcall. unfold as_user in Hcall.
  rewrite close_run in Hcall. simpl in Hcall.
  rewrite (bind_returns _ _ _ _ _ _ Hcall).
  destruct (Error_bool error); simpl.
  - reflexivity.
  - rewrite receive_closed by reflexivity. reflexivity.
Qed.

(** X12: a handler can hand its id over during its own call: removing
    itself and registering a successor under the same id succeeds, and the
    next datagram of that id finds the successor. *)
Theorem handler_replaces_itself error n (c : Client) header payload entry
    now successor :
  ec_bool error = false ->
  decodeResponseHeader (take n (read_buffer_ c)) = Ok (header, payload) ->
  requests_ c !! request_id header = Some entry ->
  call_reply (on_reply entry) header payload c
  = as_user (removeHandler (request_id header) ;;;
             (token <- registerHandler now (request_id header) successor ;;
              ret tt)) c ->
  outcome_of (onReceive error n c) = Returns tt
  /\ replies (events_of (onReceive error n c))
     = [(on_reply entry, header, payload)]
  /\ requests_ (client_of (onReceive error n c))
     = <[request_id header := {| start_time := now; on_reply := successor |}]>
         (requests_ c).
Proof.
  intros Hok Hdecode Hfound Hbody.
  rewrite (onReceive_found error n c header payload entry Hok Hdecode Hfound).
  pose proof (invoke_reply_run (on_reply entry) header payload c) as Hcall.
  rewrite Hbody in Hcall. unfold as_user in Hcall.
  rewrite (bind_returns _ _ _ _ _ _
             (removeHandler_live (request_id header) c entry Hfound)) in Hcall.
  rewrite (bind_returns _ _ _ _ _ _
             (registerHandler_free now (request_id header) successor _
                (lookup_delete_eq _ _))) in Hcall.
  unfold outcome_of, client_of, events_of, ret in Hcall. simpl in Hcall.
  rewrite insert_delete_eq in Hcall.
  rewrite (bind_returns _ _ _ _ _ _ Hcall).
  match goal with
  | |- context [receive ?c2] =>
      destruct (receive_quiet c2) as (Hreturns & Hreplies & _ & Hrequests);
      destruct (receive c2) as [[o2 c3] t2]
  end.
  unfold outcome_of, events_of, client_of in *. simpl in *.
  rewrite Hreturns, Hreplies, Hrequests. repeat split.
Qed.

(** X13: while a handler runs its entry is still in the registry: a handler
    that registers under its own id without removing itself first gets the
    duplicate-id [std::logic_error]; uncaught, it leaves the dispatch, the
    registry is as before and no receive is issued. *)
Theorem handler_registers_own_id error n (c : Client) header payload entry
    now successor :
  ec_bool error = false ->
  decodeResponseHeader (take n (read_buffer_ c)) = Ok (header, payload) ->
  requests_ c !! request_id header = Some entry ->
  call_reply (on_reply entry) header payload c
  = as_user (token <- registerHandler now (request_id header) successor ;;
             ret tt) c ->
  onReceive error n c
  = (Throws (logic_error
       (String.append "request_id "
          (String.append (pretty (request_id header))
             " is already taken, can not register handler"))),
     c, [EvReply (on_reply entry) header payload]).
Proof.
  intros Hok Hdecode Hfound Hbody.
  rewrite (onReceive_found error n c header payload entry Hok Hdecode Hfound).
  pose proof (invoke_reply_run (on_reply entry) header payload c) as Hcall.
  rewrite Hbody in Hcall. unfold as_user in Hcall.
  rewrite (bind_throws _ _ _ _ _ _
             (registerHandler_taken now (request_id header) successor c entry
                Hfound)) in Hcall.
  simpl in Hcall.
  apply (bind_throws _ _ _ _ _ _ Hcall).
Qed.

(** X14: a reply that comes a second time, after the handler of its id has
    removed itself on the first, reaches no handler: it is reported to the
    error sink as an unknown request, once. *)
Theorem second_reply_is_unknown error n (c : Client) header payload entry sink :
  ec_bool error = false ->
  decodeResponseHeader (take n (read_buffer_ c)) = Ok (header, payload) ->
  requests_ c !! request_id header = Some entry ->
  call_reply (on_reply entry) header payload c
  = as_user (removeHandler (request_id header)) c ->
  on_error c = Some sink ->
  replies (events_of (onReceive error n c)) = [(on_reply entry, header, payload)]
  /\ replies (events_of (onReceive error n (client_of (onReceive error n c)))) = []
  /\ error_calls (events_of (onReceive error n (client_of (onReceive error n c))))
     = [(sink, unknown_request_error (request_id header))].
Proof.
  intros Hok Hdecode Hfound Hbody Hsink.
  rewrite (onReceive_found error n c header payload entry Hok Hdecode Hfound).
  pose proof (invoke_reply_run (on_reply entry) header payload c) as Hcall.
  rewrite Hbody in Hcall. unfold as_user in Hcall.
  rewrite (removeHandler_live (request_id header) c entry Hfound) in Hcall.
  simpl in Hcall.
  rewrite (bind_returns _ _ _ _ _ _ Hcall).
  match goal with
  | |- context [receive ?c2] =>
      destruct (receive_quiet c2) as (_ & Hreplies & _ & Hrequests);
      destruct (receive_frame c2) as [Hbuffer Hsink1];
      destruct (receive c2) as [[o2 c1] t2]
  end.
  unfold outcome_of, client_of, events_of in *. simpl in *.
  split; [rewrite Hreplies; reflexivity |].
  assert (Hunknown : onReceive error n c1
    = (report (unknown_request_error (request_id header)) ;;; receive) c1).
  { apply (onReceive_unknown_request error n c1 header payload Hok).
    - rewrite Hbuffer. exact Hdecode.
    - rewrite Hrequests. apply lookup_delete_eq. }
  rewrite Hunknown.
  destruct (then_receive (report (unknown_request_error (request_id header))) c1)
    as (issued & Hevents & Hissued & _).
  unfold events_of in Hevents. rewrite Hevents.
  rewrite (report_sink _ c1 sink) by (rewrite Hsink1; exact Hsink).
  simpl.
  destruct Hissued as [-> | ->]; split; reflexivity.
Qed.

End EngineComposition.

(** * The request ids of the file functions *)

Section FileProperties.
Context `{Types} {transfer : FileTransfer}.

Lemma file_function_counter call (fc : FileClient) :
  transfers_keep_counter ->
  request_id_ (file_function call fc).2 = (request_id_ fc + 1) mod 256.
Proof.
  intros (Hlist & Hread & Hwrite).
  destruct call; simpl; unfold readFileList, readFile, writeFile.
  - rewrite Hlist. reflexivity.
  - rewrite Hread. reflexivity.
  - rewrite Hwrite. reflexivity.
Qed.

Lemma file_functions_app before after (fc : FileClient) :
  file_functions (before ++ after) fc
  = file_functions after (file_functions before fc).
Proof.
  revert fc. induction before as [| call before IH]; intros fc; [reflexivity |].
  simpl. apply IH.
Qed.

(** X15: each of [readFileList], [readFile] and [writeFile] takes one
    request id, whether its transfer returns or throws: after any number of
    calls, in any mix, the counter (the id the next call hands to its
    transfer) has advanced by that number modulo 256, and it is an 8-bit
    value again. *)
Theorem file_functions_counter calls : forall (fc : FileClient),
  transfers_keep_counter ->
  0 <= request_id_ fc < 256 ->
  request_id_ (file_functions calls fc)
  = (request_id_ fc + Z.of_nat (length calls)) mod 256
  /\ 0 <= request_id_ (file_functions calls fc) < 256.
Proof.
  induction calls as [| call calls IH]; intros fc Hkeep Hrange.
  - simpl. split; [| exact Hrange].
    rewrite Z.add_0_r, Z.mod_small; [reflexivity | exact Hrange].
  - simpl file_functions.
    pose proof (file_function_counter call fc Hkeep) as Hstep.
    destruct (IH (file_function call fc).2 Hkeep) as [Hcount Hbounds].
    { rewrite Hstep. apply Z.mod_pos_bound. lia. }
    split; [| exact Hbounds].
    rewrite Hcount, Hstep.
    replace (Z.of_nat (length (call :: calls)))
      with (1 + Z.of_nat (length calls)) by (simpl length; lia).
    rewrite Z.add_mod_idemp_l by lia. f_equal. lia.
Qed.

(** X16: the ids of up to 256 consecutive file functions are pairwise
    different, and the 257th gets the id of the first again: the id handed
    out after some calls differs from the one handed out after fewer than 256
    further calls, and equals the one handed out after exactly 256 further
    calls. *)
Theorem file_ids_wrap before between (fc : FileClient) :
  transfers_keep_counter ->
  0 <= request_id_ fc < 256 ->
  ((0 < length between < 256)%nat ->
   request_id_ (file_functions (before ++ between) fc)
   <> request_id_ (file_functions before fc))
  /\ (length between = 256%nat ->
      request_id_ (file_functions (before ++ between) fc)
      = request_id_ (file_functions before fc)).
Proof.
  intros Hkeep Hrange.
  destruct (file_functions_counter before fc Hkeep Hrange) as [_ Hbounds].
  rewrite file_functions_app.
  destruct (file_functions_counter between (file_functions before fc) Hkeep Hbounds)
    as [Hcount _].
  rewrite Hcount.
  split; intros Hlength.
  - Z.div_mod_to_equations. lia.
  - rewrite Hlength. Z.div_mod_to_equations. lia.
Qed.

End FileProperties.

(** * The loop on a closed socket *)

Section ClosedSocket.
Context `{Types} {codec : Codec} {user : UserCode}.

Lemma run_idle completions : forall (c : Client),
  receive_ops (socket_ c) = [] -> run completions c = (c, []).
Proof.
  induction completions as [| [error datagram] completions IH]; intros c Hidle.
  - reflexivity.
  - simpl. rewrite (complete_receive_idle error datagram c Hidle), (IH c Hidle).
    reflexivity.
Qed.

(** On a closed socket, with the one call into user code keeping a property
    of the socket that only closed sockets have, [onReceive] keeps it and
    issues no receive. *)
Lemma onReceive_closed (P : udp_socket -> Prop) error n (c : Client) :
  (forall s, P s -> is_open s = false) ->
  P (socket_ c) ->
  (forall callback header payload,
     P (socket_ (call_reply callback header payload c).2)) ->
  (forall callback e, P (socket_ (call_error callback e c).2)) ->
  P (socket_ (client_of (onReceive error n c)))
  /\ receives_issued (events_of (onReceive error n c)) = 0%nat.
Proof.
  intros Hclosed Hc Hreply Hsink.
  destruct (is_operation_canceled error) eqn:Hcancel.
  { rewrite (onReceive_canceled error n c Hcancel). split; [exact Hc | reflexivity]. }
  destruct (onReceive_step error n c Hcancel) as (m & Hrun & Hstep).
  rewrite Hrun.
  assert (Hm : exists o c1 t,
    m c = (o, c1, t) /\ P (socket_ c1) /\ receives_issued t = 0%nat).
  { destruct Hstep as [[Hm _] | [(sink & e & _ & Hm) | (header & payload & entry & _ & Hm)]].
    - exists (Returns tt), c, []. repeat split; assumption.
    - eexists _, _, _. split; [exact Hm |]. split; [apply Hsink | reflexivity].
    - eexists _, _, _. split; [exact Hm |]. split; [apply Hreply | reflexivity]. }
  destruct Hm as (o & c1 & t & Hm & Hc1 & Hnone).
  destruct o as [[] | ex |].
  - rewrite (bind_returns _ _ _ _ _ _ Hm).
    rewrite (receive_closed c1 (Hclosed _ Hc1)).
    unfold client_of, events_of. simpl. rewrite app_nil_r.
    split; assumption.
  - rewrite (bind_throws _ _ _ _ _ _ Hm). split; assumption.
  - rewrite (bind_undefined _ _ _ _ _ Hm). split; assumption.
Qed.

(** C7, amended: [receive] looks at the socket before it issues anything and
    does nothing on a closed one, and [close] leaves the socket closed.  So
    on a closed socket no receive is issued any more, whatever completion
    [onReceive] gets: a cancellation is dropped without a call; a completion
    that is no cancellation (one the cancellation missed) is still dispatched
    or reported, once, and the loop ends there, the socket staying closed as
    user code has left it.  At the event loop: with the receive the close
    missed as the one outstanding, its completion is all that is processed;
    no receive follows it and later completions are not seen. *)
Theorem closed_socket_halts_loop error n (c : Client) :
  is_open (socket_ c) = false ->
  (forall callback header payload,
     is_open (socket_ (call_reply callback header payload c).2) = false) ->
  (forall callback e, is_open (socket_ (call_error callback e c).2) = false) ->
  (forall c0 : Client, is_open (socket_ (client_of (close c0))) = false)
  /\ receive c = (Returns tt, c, [])
  /\ receives_issued (events_of (onReceive error n c)) = 0%nat
  /\ is_open (socket_ (client_of (onReceive error n c))) = false
  /\ (is_operation_canceled error = true ->
      onReceive error n c = (Returns tt, c, []))
  /\ (user_code_keeps_socket ->
      forall datagram later,
        receive_ops (socket_ c) = [Waiting] ->
        (run ((error, datagram) :: later) c).2
        = events_of (complete_receive error datagram c)
        /\ receives_issued (run ((error, datagram) :: later) c).2 = 0%nat
        /\ receive_ops (socket_ (run ((error, datagram) :: later) c).1) = []).
Proof.
  intros Hclosed Hreply Hsink.
  split; [intros c0; rewrite close_run; reflexivity |].
  split; [apply receive_closed; exact Hclosed |].
  destruct (onReceive_closed (fun s => is_open s = false) error n c
              (fun s Hs => Hs) Hclosed Hreply Hsink) as [Hstays Hnone].
  split; [exact Hnone |]. split; [exact Hstays |].
  split; [apply onReceive_canceled |].
  intros [Hkeep_reply Hkeep_sink] datagram later Hops.
  simpl. rewrite (complete_receive_received error datagram c [] Hops).
  destruct (onReceive_closed (fun s => s = socket_ (received datagram c))
              error (length (take buffer_size datagram)) (received datagram c))
    as [Hsocket Hissued].
  - intros s ->. simpl. exact Hclosed.
  - reflexivity.
  - intros callback header payload. apply Hkeep_reply.
  - intros callback e. apply Hkeep_sink.
  - destruct (onReceive error (length (take buffer_size datagram))
                (received datagram c)) as [[o c1] t].
    unfold client_of, events_of in *. simpl in *.
    rewrite (run_idle later c1) by (rewrite Hsocket; simpl; rewrite Hops; reflexivity).
    simpl. rewrite app_nil_r.
    split; [reflexivity |]. split; [exact Hissued |].
    rewrite Hsocket. simpl. rewrite Hops. reflexivity.
Qed.

End ClosedSocket.

(** * The copy of the callback *)

Section LifetimeProperties.
Variable Header : Type.
Context {codec : @Codec (Lifetime.types Header)}.

(** The finer embedding is the engine, run on scripts. *)
Lemma lifetime_onReceive error n (c : @Client (Lifetime.types Header)) :
  Lifetime.onReceive Header error n c
  = onReceive (H := Lifetime.types Header) (user := Lifetime.user Header) error n c.
Proof. reflexivity. Qed.

Lemma erase_elsewhere token (c : @Client (Lifetime.types Header)) entry :
  requests_ c !! token = Some entry ->
  Lifetime.erase Header Lifetime.elsewhere token c
  = (Returns tt, set_requests (delete token (requests_ c)) c, []).
Proof.
  intros Hlive. unfold Lifetime.erase.
  rewrite (bind_returns _ _ _ _ _ _ (removeHandler_live token c entry Hlive)).
  reflexivity.
Qed.

Lemma erase_own_entry token (c : @Client (Lifetime.types Header)) entry :
  requests_ c !! token = Some entry ->
  Lifetime.erase Header (Lifetime.entry_of token) token c
  = (Undefined, set_requests (delete token (requests_ c)) c, []).
Proof.
  intros Hlive. unfold Lifetime.erase.
  rewrite (bind_returns _ _ _ _ _ _ (removeHandler_live token c entry Hlive)).
  rewrite bool_decide_eq_true_2 by reflexivity. reflexivity.
Qed.

(** C3: [onReceive] calls a copy of the callback of the entry, not the
    callable inside the entry.  So a handler whose body is [removeHandler] on
    its own token (the one [registerHandler] returned for it) runs to its end
    without fault: the dispatch returns, the handler was called once, and
    afterwards the registry has no entry under that id and every other entry
    as before.  Called where it is stored, the same handler would destroy the
    callable that is running: the dispatch without the copy ends in undefined
    behaviour on the same input. *)
Theorem handler_removes_itself now rid token
    (c0 c1 c : @Client (Lifetime.types Header)) error n header payload :
  registerHandler (H := Lifetime.types Header) now rid [Script.do_remove token] c0
  = (Returns token, c1, []) ->
  requests_ c = requests_ c1 ->
  ec_bool error = false ->
  decodeResponseHeader (take n (read_buffer_ c)) = Ok (header, payload) ->
  request_id header = rid ->
  Lifetime.onReceive Header error n c
  = onReceive (H := Lifetime.types Header) (user := Lifetime.user Header) error n c
  /\ outcome_of (Lifetime.onReceive Header error n c) = Returns tt
  /\ replies (events_of (Lifetime.onReceive Header error n c))
     = [([Script.do_remove token], header, payload)]
  /\ requests_ (client_of (Lifetime.onReceive Header error n c)) !! rid = None
  /\ requests_ (client_of (Lifetime.onReceive Header error n c))
     = delete rid (requests_ c)
  /\ outcome_of (Lifetime.onReceive_in_place Header error n c) = Undefined
  /\ replies (events_of (Lifetime.onReceive_in_place Header error n c))
     = [([Script.do_remove token], header, payload)].
Proof.
  intros Hregister Hsame Hok Hdecode Hid.
  split; [reflexivity |].
  assert (Htoken : token = rid
          /\ requests_ c !! rid
             = Some (mk_entry (H := Lifetime.types Header) now [Script.do_remove token])).
  { destruct (requests_ c0 !! rid) as [old |] eqn:Hfree.
    { rewrite (registerHandler_taken now rid _ c0 old Hfree) in Hregister.
      discriminate. }
    rewrite (registerHandler_free now rid _ c0 Hfree) in Hregister.
    inversion Hregister as [[Htok Hc1]]. split; [reflexivity |].
    rewrite Hsame, <- Hc1. simpl. apply lookup_insert_eq. }
  destruct Htoken as [-> Hfound].
  assert (Hbody : call_reply (UserCode := Lifetime.user Header)
                    [Script.do_remove rid] header payload c
                  = as_user (removeHandler rid) c).
  { simpl. unfold as_user, bind.
    rewrite (erase_elsewhere rid c _ Hfound).
    rewrite (removeHandler_live rid c _ Hfound). reflexivity. }
  rewrite lifetime_onReceive.
  destruct (self_removal_dispatch (H := Lifetime.types Header)
              (user := Lifetime.user Header)
              now rid [Script.do_remove rid] rid c0 c1 c error n header payload
              Hregister Hsame Hbody Hok Hdecode Hid)
    as (Hreturns & Hreplies & Hgone & Hrest).
  split; [exact Hreturns |]. split; [exact Hreplies |].
  split; [exact Hgone |]. split; [exact Hrest |].
  assert (Hplace : Lifetime.onReceive_in_place Header error n c
    = (Undefined, set_requests (delete rid (requests_ c)) c,
       [EvReply (H := Lifetime.types Header) [Script.do_remove rid] header payload])).
  { unfold Lifetime.onReceive_in_place.
    rewrite (success_not_canceled error Hok), Hok, bind_get, Hdecode, Hid, Hfound.
    unfold Lifetime.call_handler, Lifetime.stored. simpl.
    unfold bind at 1.
    unfold bind at 1, emit, lift, as_user. unfold bind at 1.
    rewrite (erase_own_entry rid c _ Hfound). reflexivity. }
  rewrite Hplace. split; reflexivity.
Qed.

End LifetimeProperties.

(** * The properties at work on the instance *)

#[local] Existing Instances Example.types Example.codec Example.user.

(** The datagram for request 7 reaches the handler registered under 7, which
    removes itself; the payload is the two bytes after the header byte. *)
Lemma onReceive_dispatches_once_witness :
  requests_ (client_of (onReceive (H := Example.types) Example.success 3
                          (Example.waiting_for_7 None))) !! 7 = None
  /\ [x2a; x2b] = drop 1 (take 3 (read_buffer_ (Example.waiting_for_7 None))).
Proof.
  destruct (onReceive_dispatches_once (H := Example.types) Example.success 3
              (Example.waiting_for_7 None)
              {| Example.header_id := 7 |} [x2a; x2b]
              (mk_entry (H := Example.types) 10 (Example.remove_handler 7)))
    as (Hrun & _ & _ & Hwire); [reflexivity .. |].
  split.
  - rewrite Hrun. reflexivity.
  - apply (Hwire 1%nat). intros message header payload Hdecode.
    destruct message as [| b message]; [discriminate |].
    inversion Hdecode. reflexivity.
Defined.

(** Registering under 7 a second time throws and keeps the first entry. *)
Lemma registerHandler_duplicate_witness :
  requests_ (client_of (registerHandler (H := Example.types) 30 7 Example.do_nothing
                          (Example.waiting_for_7 None))) !! 7
  = Some (mk_entry (H := Example.types) 10 (Example.remove_handler 7)).
Proof.
  apply (registerHandler_duplicate (H := Example.types) 30 7 Example.do_nothing
           (Example.waiting_for_7 None)).
  reflexivity.
Defined.

(** A refused connection is reported and the receive is issued again. *)
Lemma onReceive_failure_reported_witness :
  onReceive (H := Example.types) Example.connection_refused 0
    (Example.waiting_for_7 (Some Example.ignore_error))
  = (Returns tt,
     set_socket (async_receive (socket_ (Example.waiting_for_7 (Some Example.ignore_error))))
       (Example.waiting_for_7 (Some Example.ignore_error)),
     [EvErrorCallback Example.ignore_error (Error_of_code (make_error_code 111));
      EvAsyncReceive]).
Proof.
  destruct (onReceive_failure_reported (H := Example.types)
              Example.connection_refused 0
              (Example.waiting_for_7 (Some Example.ignore_error))
              (Example.waiting_for_7 (Some Example.ignore_error))
              Example.ignore_error (Error_of_code (make_error_code 111)))
    as (_ & _ & _ & Hopen);
    [left; repeat split; reflexivity | reflexivity | reflexivity |].
  apply Hopen. reflexivity.
Defined.

(** A datagram for request 7 when only 9 is registered. *)
Lemma onReceive_unknown_request_reported_witness :
  error_calls (events_of (onReceive (H := Example.types) Example.success 3
                            (Example.listening (Some Example.ignore_error))))
  = [(Example.ignore_error, unknown_request_error 7)].
Proof.
  destruct (onReceive_unknown_request_reported (H := Example.types)
              Example.success 3
              (Example.listening (Some Example.ignore_error))
              (Example.listening (Some Example.ignore_error))
              Example.ignore_error {| Example.header_id := 7 |} [x2a; x2b])
    as (_ & _ & Hcalls & _); [reflexivity .. | exact Hcalls].
Defined.

(** The same errors with no sink: only the re-issue is left. *)
Lemma onReceive_without_sink_witness :
  onReceive (H := Example.types) Example.connection_refused 0 (Example.waiting_for_7 None)
  = receive (Example.waiting_for_7 None).
Proof.
  apply (onReceive_without_sink (H := Example.types) Example.connection_refused 0
           (Example.waiting_for_7 None) (Error_of_code (make_error_code 111)));
    reflexivity.
Defined.

(** A cancelled receive ends the loop. *)
Lemma onReceive_cancellation_stops_witness :
  onReceive (H := Example.types) Example.aborted 0 (Example.waiting_for_7 (Some Example.ignore_error))
  = (Returns tt, Example.waiting_for_7 (Some Example.ignore_error), []).
Proof.
  apply (onReceive_cancellation_stops (H := Example.types) Example.aborted 0
           (Example.waiting_for_7 (Some Example.ignore_error))).
  reflexivity.
Defined.

(** A successful connect of a new client: one call of the callback, then
    the first receive. *)
Lemma connect_completion_witness :
  events_of (complete_connect (H := Example.types) (Error_of_code Example.success) false
               (client_of (connect "127.0.0.1" "10040" 500 Example.ignore_error
                             new_Client)))
  = [EvErrorCallback Example.ignore_error (Error_of_code Example.success);
     EvAsyncReceive].
Proof.
  destruct (connect_completion (H := Example.types) "127.0.0.1" "10040" 500
              Example.ignore_error
              (Error_of_code Example.success) false new_Client
              (set_socket {| is_open := true; receive_ops := []; connect_ops := [] |}
                 new_Client))
    as (_ & _ & _ & _ & _ & _ & Hopen); [reflexivity .. |].
  destruct (Hopen eq_refl) as [_ Hrun]. rewrite (Hrun eq_refl). reflexivity.
Defined.

(** Two registrations under 7 and 9 on a new client. *)
Lemma register_distinct_then_remove_witness :
  exists tokens c',
    registerHandlers (H := Example.types) [(10, 7, Example.remove_handler 7); (20, 9, Example.do_nothing)]
      new_Client = (Returns tokens, c', [])
    /\ length tokens = 2%nat.
Proof.
  destruct (register_distinct_then_remove (H := Example.types)
              [(10, 7, Example.remove_handler 7); (20, 9, Example.do_nothing)]
              new_Client)
    as (tokens & c' & Hrun & Hlength & _).
  - apply (bool_decide_unpack _). vm_compute. exact I.
  - intros rid _. reflexivity.
  - exists tokens, c'. split; [exact Hrun | exact Hlength].
Defined.

(** A handler that removes itself, run from the copy and run in place. *)
Lemma handler_removes_itself_witness :
  outcome_of (Lifetime.onReceive Example.header (codec := Script.codec)
                Example.success 3 (Script.serving [Script.do_remove 7] None))
  = Returns tt
  /\ outcome_of (Lifetime.onReceive_in_place Example.header (codec := Script.codec)
                   Example.success 3 (Script.serving [Script.do_remove 7] None))
     = Undefined.
Proof.
  destruct (handler_removes_itself Example.header (codec := Script.codec)
              10 7 7
              (set_requests ∅ (Script.serving [Script.do_remove 7] None))
              (Script.serving [Script.do_remove 7] None)
              (Script.serving [Script.do_remove 7] None)
              Example.success 3 {| Example.header_id := 7 |} [x2a; x2b])
    as (_ & Hreturns & _ & _ & _ & Hplace & _); [reflexivity .. |].
  split; [exact Hreturns | exact Hplace].
Defined.

(** A client closed with its receive outstanding; the completion of that
    receive, a datagram for the handler under 7, is dispatched, and nothing
    is issued after it. *)
Lemma closed_socket_halts_loop_witness :
  receives_issued
    (events_of (onReceive (H := Example.types) Example.success 3
                  (client_of (close Example2.running))))
  = 0%nat.
Proof.
  apply (closed_socket_halts_loop (H := Example.types) Example.success 3
           (client_of (close Example2.running))).
  - reflexivity.
  - intros callback header payload. destruct callback; try reflexivity.
    simpl. unfold as_user, removeHandler. rewrite bind_get.
    destruct (requests_ (client_of (close Example2.running)) !! token);
      reflexivity.
  - intros callback e. destruct callback; reflexivity.
Defined.

(** After [close], the completion of the receive that was outstanding, when
    it signals no cancellation, is dispatched to the handler of its id, and
    an error is reported to the sink. *)
Lemma dispatch_after_close :
  is_open (socket_ (client_of (close (H := Example.types) Example2.running))) = false
  /\ replies (events_of (onReceive (H := Example.types) Example.success 3
                           (client_of (close Example2.running))))
     = [(Example.remove_handler 7, {| Example.header_id := 7 |}, [x2a; x2b])]
  /\ error_calls (events_of (onReceive (H := Example.types)
                               Example.connection_refused 0
                               (client_of (close Example2.running))))
     = [(Example.ignore_error, Error_of_code (make_error_code 111))].
Proof. repeat split. Qed.

(** * The further properties on the instances *)

Lemma register_then_remove_witness :
  (token <- registerHandler (H := Example.types) 30 8 Example.do_nothing ;;
   removeHandler token) (Example.waiting_for_7 None)
  = (Returns tt, Example.waiting_for_7 None, []).
Proof.
  apply (register_then_remove (H := Example.types) 30 8 Example.do_nothing
           (Example.waiting_for_7 None)).
  reflexivity.
Defined.

Lemma remove_then_register_witness :
  outcome_of ((removeHandler (H := Example.types) 7 ;;;
               registerHandler 30 7 Example.do_nothing)
                (Example.waiting_for_7 None))
  = Returns 7.
Proof.
  destruct (remove_then_register (H := Example.types) 7 30 Example.do_nothing
              (Example.waiting_for_7 None)
              (mk_entry (H := Example.types) 10 (Example.remove_handler 7)))
    as [Hrun _]; [reflexivity |].
  rewrite Hrun. reflexivity.
Defined.

Lemma remove_twice_witness :
  outcome_of ((removeHandler (H := Example.types) 7 ;;; removeHandler 7)
                (Example.waiting_for_7 None))
  = Undefined.
Proof.
  rewrite (remove_twice (H := Example.types) 7 (Example.waiting_for_7 None)
             (mk_entry (H := Example.types) 10 (Example.remove_handler 7)));
    reflexivity.
Defined.

Lemma registry_capacity_witness :
  (size (requests_ (Example.waiting_for_7 None)) <= 256)%nat.
Proof.
  apply (registry_capacity (H := Example.types) 30 8 Example.do_nothing
           (Example.waiting_for_7 None)).
  - apply (bool_decide_unpack _). vm_compute. exact I.
  - lia.
Defined.

Lemma handler_exception_ends_loop_witness :
  onReceive (H := Script.types) (codec := Script.codec) (user := Script.user) Example.success 3
    (Script.serving [Script.do_throw "boom"] None)
  = (Throws (user_exception "boom"),
     Script.serving [Script.do_throw "boom"] None,
     [EvReply (H := Script.types) [Script.do_throw "boom"] {| Example.header_id := 7 |} [x2a; x2b]]).
Proof.
  apply (handler_exception_ends_loop (H := Script.types) (codec := Script.codec)
           (user := Script.user) Example.success 3
           (Script.serving [Script.do_throw "boom"] None)
           (Script.serving [Script.do_throw "boom"] None)
           {| Example.header_id := 7 |} [x2a; x2b]
           (mk_entry (H := Script.types) 10 [Script.do_throw "boom"])
           (user_exception "boom"));
    reflexivity.
Defined.

Lemma sink_exception_ends_loop_witness :
  onReceive (H := Script.types) (codec := Script.codec) (user := Script.user) Example.connection_refused 0
    (Script.serving [] (Some [Script.do_throw "stop"]))
  = (Throws (user_exception "stop"),
     Script.serving [] (Some [Script.do_throw "stop"]),
     [EvErrorCallback (H := Script.types) [Script.do_throw "stop"]
        (Error_of_code (make_error_code 111))]).
Proof.
  apply (sink_exception_ends_loop (H := Script.types) (codec := Script.codec)
           (user := Script.user) Example.connection_refused 0
           (Script.serving [] (Some [Script.do_throw "stop"]))
           (Script.serving [] (Some [Script.do_throw "stop"]))
           [Script.do_throw "stop"] (Error_of_code (make_error_code 111))
           (user_exception "stop"));
    reflexivity.
Defined.

Lemma onlooker_keeps_registry :
  user_code_keeps_registry (H := Example.types) (user := Example2.onlooker).
Proof. split; intros; reflexivity. Defined.

Lemma onlooker_keeps_socket :
  user_code_keeps_socket (H := Example.types) (user := Example2.onlooker).
Proof. split; intros; split; reflexivity. Defined.

Lemma run_keeps_registry_witness :
  requests_ (run (H := Example.types) (user := Example2.onlooker)
               [(Example.success, [x07; x01]); (Example.connection_refused, [])]
               Example2.running).1
  = requests_ Example2.running.
Proof.
  apply (run_keeps_registry (H := Example.types) (user := Example2.onlooker)
           [(Example.success, [x07; x01]); (Example.connection_refused, [])]
           Example2.running onlooker_keeps_registry).
Defined.

Lemma run_keeps_receiving_witness :
  receive_ops (socket_ (run (H := Example.types) (user := Example2.onlooker)
                          [(Example.success, [x07; x01]);
                           (Example.connection_refused, []);
                           (Example.success, [])]
                          Example2.running).1)
  = [Waiting].
Proof.
  apply (run_keeps_receiving (H := Example.types) (user := Example2.onlooker)
           [(Example.success, [x07; x01]); (Example.connection_refused, []);
            (Example.success, [])]
           Example2.running onlooker_keeps_socket).
  - repeat constructor.
  - reflexivity.
  - reflexivity.
Defined.

Lemma sink_closes_witness :
  onReceive (H := Example.types) Example.connection_refused 0
    (Example.waiting_for_7 (Some Example.close_on_error))
  = (Returns tt,
     set_socket (socket_close (socket_ (Example.waiting_for_7 (Some Example.close_on_error))))
       (Example.waiting_for_7 (Some Example.close_on_error)),
     [EvErrorCallback Example.close_on_error (Error_of_code (make_error_code 111))]).
Proof.
  apply (sink_closes (H := Example.types) (codec := Example.codec)
           (user := Example.user) Example.connection_refused 0
           (Example.waiting_for_7 (Some Example.close_on_error))
           Example.close_on_error (Error_of_code (make_error_code 111)) []);
    reflexivity.
Defined.

Lemma connect_callback_closes_witness :
  events_of (onConnect (H := Example.types) (user := Example.user)
               (Error_of_code Example.success) Example.close_on_error
               (Example.listening None))
  = [EvErrorCallback Example.close_on_error (Error_of_code Example.success)].
Proof.
  rewrite (connect_callback_closes (H := Example.types) (user := Example.user)
             (Error_of_code Example.success) Example.close_on_error
             (Example.listening None));
    reflexivity.
Defined.

Lemma handler_replaces_itself_witness :
  requests_ (client_of (onReceive (H := Script.types) (codec := Script.codec) (user := Script.user) Example.success 3
               (Script.serving
                  [Script.do_remove 7; Script.do_register 30 7 []] None))) !! 7
  = Some (mk_entry (H := Script.types) 30 []).
Proof.
  destruct (handler_replaces_itself (H := Script.types) (codec := Script.codec)
              (user := Script.user) Example.success 3
              (Script.serving [Script.do_remove 7; Script.do_register 30 7 []] None)
              {| Example.header_id := 7 |} [x2a; x2b]
              (mk_entry (H := Script.types) 10
                 [Script.do_remove 7; Script.do_register 30 7 []])
              30 [])
    as (_ & _ & Hrequests); [reflexivity .. |].
  rewrite Hrequests. reflexivity.
Defined.

Lemma handler_registers_own_id_witness :
  outcome_of (onReceive (H := Script.types) (codec := Script.codec) (user := Script.user) Example.success 3
                (Script.serving [Script.do_register 30 7 []] None))
  = Throws (logic_error "request_id 7 is already taken, can not register handler").
Proof.
  rewrite (handler_registers_own_id (H := Script.types) (codec := Script.codec)
             (user := Script.user) Example.success 3
             (Script.serving [Script.do_register 30 7 []] None)
             {| Example.header_id := 7 |} [x2a; x2b]
             (mk_entry (H := Script.types) 10 [Script.do_register 30 7 []])
             30 []);
    reflexivity.
Defined.

Lemma second_reply_is_unknown_witness :
  error_calls (events_of (onReceive (H := Example.types) Example.success 3
     (client_of (onReceive (H := Example.types) Example.success 3
                   (Example.waiting_for_7 (Some Example.ignore_error))))))
  = [(Example.ignore_error, unknown_request_error 7)].
Proof.
  destruct (second_reply_is_unknown (H := Example.types) (codec := Example.codec)
              (user := Example.user) Example.success 3
              (Example.waiting_for_7 (Some Example.ignore_error))
              {| Example.header_id := 7 |} [x2a; x2b]
              (mk_entry (H := Example.types) 10 (Example.remove_handler 7))
              Example.ignore_error)
    as (_ & _ & Hcalls); [reflexivity .. |].
  exact Hcalls.
Defined.

Lemma registering_keeps_counter :
  transfers_keep_counter (H := Example.types) (transfer := Example2.transfer).
Proof.
  repeat split; intros rid command timeout on_done on_progress fc; simpl;
    unfold Example2.registering;
    destruct (registerHandler (H := Example.types) 0 rid Example.do_nothing
                (client fc)) as [[[token | ex |] c] t];
    reflexivity.
Defined.

Lemma file_functions_counter_witness :
  request_id_
    (file_functions (H := Example.types) (transfer := Example2.transfer)
       [Example2.list_jobs; Example2.read_job; Example2.write_job]
       (Example2.counting_from 254))
  = 1.
Proof.
  destruct (file_functions_counter (H := Example.types)
              (transfer := Example2.transfer)
              [Example2.list_jobs; Example2.read_job; Example2.write_job]
              (Example2.counting_from 254)
              registering_keeps_counter)
    as [Hcount _]; [simpl; lia |].
  rewrite Hcount. reflexivity.
Defined.

Lemma file_ids_wrap_witness :
  request_id_
    (file_functions (H := Example.types) (transfer := Example2.transfer)
       ([Example2.read_job] ++ [Example2.write_job])
       (Example2.counting_from 255))
  <> request_id_
       (file_functions (H := Example.types) (transfer := Example2.transfer)
          [Example2.read_job] (Example2.counting_from 255)).
Proof.
  apply (file_ids_wrap (H := Example.types) (transfer := Example2.transfer)
           [Example2.read_job] [Example2.write_job]
           (Example2.counting_from 255) registering_keeps_counter).
  - simpl. lia.
  - simpl. lia.
Defined.
